(** * Resume builder: additional-section layout, keyword segments, form handlers

    A shallow embedding of the presentational logic of the resume builder
    front end:

    - the resolution of the "additional" block (order, labels, two-column
      split, ratio and gap) as it is written, three times over, in the
      keyword-highlight view and in two resume templates;
    - the edit handlers of the additional-info form and of the
      personal-info form, run against an explicit object store so that
      "a fresh object is handed to [onChange]" is a statement about the
      store and not an artefact of a pure model;
    - the keyword segmenter of [lib/utils/keyword-matcher], modelled from
      its written contract.

    JavaScript strings are sequences of UTF-16 code units, numbers are
    IEEE-754 binary64 values ([spec_float] at precision 53), plain objects
    used as dictionaries are [gmap]s. *)

From Stdlib Require Import ZArith NArith List String Ascii Lia.
From Stdlib Require Import SpecFloat.
From stdpp Require Import gmap list.
From Equations Require Import Equations.
Import ListNotations.

Set Default Proof Using "Type".

(* ================================================================== *)
(** * Part I. The model                                                 *)
(* ================================================================== *)

(** ** JavaScript strings *)

(** A string is the list of its UTF-16 code units. *)
Abbreviation jsstring := (list N).

(** ASCII literals, so that property names read as in the source. *)
Definition lit (s : string) : jsstring :=
  List.map N_of_ascii (list_ascii_of_string s).

Module JsString.

(** [WhiteSpace] and [LineTerminator] of ECMA-262: the characters that
    [String.prototype.trim] strips. *)
Definition is_white_space (c : N) : bool :=
  (  (c =? 0x0009) || (c =? 0x000A) || (c =? 0x000B) || (c =? 0x000C)
  || (c =? 0x000D) || (c =? 0x0020) || (c =? 0x00A0) || (c =? 0x1680)
  || ((0x2000 <=? c) && (c <=? 0x200A))
  || (c =? 0x2028) || (c =? 0x2029) || (c =? 0x202F) || (c =? 0x205F)
  || (c =? 0x3000) || (c =? 0xFEFF))%N.

Fixpoint trimStart (s : jsstring) : jsstring :=
  match s with
  | c :: s' => if is_white_space c then trimStart s' else s
  | [] => []
  end.

Definition trimEnd (s : jsstring) : jsstring :=
  rev (trimStart (rev s)).

(** [s.trim()] *)
Definition trim (s : jsstring) : jsstring := trimEnd (trimStart s).

(** Truthiness of a string: only the empty string is falsy. *)
Definition truthy (s : jsstring) : bool :=
  match s with [] => false | _ :: _ => true end.

(** [a || b] on strings. *)
Definition or_else (a b : jsstring) : jsstring :=
  if truthy a then a else b.

(** [s.split(sep)] for a one-code-unit separator. *)
Fixpoint split_on (sep : N) (s : jsstring) : list jsstring :=
  match s with
  | [] => [[]]
  | c :: s' =>
      if (c =? sep)%N then [] :: split_on sep s'
      else match split_on sep s' with
           | piece :: pieces => (c :: piece) :: pieces
           | [] => [[c]]
           end
  end.

End JsString.

(** ** JavaScript numbers *)

Module JsNumber.

Definition prec : Z := 53.
Definition emax : Z := 1024.

(** A number is a binary64 value; the well-formed ones satisfy
    [valid_binary prec emax]. *)
Abbreviation number := spec_float.

Definition NaN : number := S754_nan.

Definition of_Z (z : Z) : number := binary_normalize prec emax z 0 false.

Definition sub (x y : number) : number := SFsub prec emax x y.
Definition div (x y : number) : number := SFdiv prec emax x y.

(** The decimal literal [n/d], correctly rounded. *)
Definition decimal (n d : Z) : number := div (of_Z n) (of_Z d).

(** The two-digit literals of the source. *)
Definition n0_25 : number := Eval cbv in decimal 25 100.
Definition n0_5  : number := Eval cbv in decimal 5 10.
Definition n0_75 : number := Eval cbv in decimal 75 100.
Definition n1    : number := Eval cbv in of_Z 1.
Definition n1_25 : number := Eval cbv in decimal 125 100.
Definition n2_5  : number := Eval cbv in decimal 25 10.
Definition n0_1  : number := Eval cbv in decimal 1 10.
Definition n0_9  : number := Eval cbv in decimal 9 10.

Definition is_NaN (x : number) : bool :=
  match x with S754_nan => true | _ => false end.

Definition ltb (x y : number) : bool := SFltb x y.
Definition leb (x y : number) : bool := SFleb x y.

Definition is_pos_zero (x : number) : bool :=
  match x with S754_zero false => true | _ => false end.
Definition is_neg_zero (x : number) : bool :=
  match x with S754_zero true => true | _ => false end.

(** [Math.max(a, b)]: NaN if either argument is NaN, otherwise the
    larger, with [+0] above [-0]. *)
Definition Math_max (a b : number) : number :=
  if is_NaN a || is_NaN b then NaN
  else if ltb a b || (is_neg_zero a && is_pos_zero b) then b
  else a.

(** [Math.min(a, b)]: NaN if either argument is NaN, otherwise the
    smaller, with [-0] below [+0]. *)
Definition Math_min (a b : number) : number :=
  if is_NaN a || is_NaN b then NaN
  else if ltb b a || (is_pos_zero a && is_neg_zero b) then b
  else a.

(** [x ?? d] on an optional number. *)
Definition nullish (x : option number) (d : number) : number :=
  match x with Some v => v | None => d end.

(** [lo <= x <= hi] in the IEEE order (false as soon as a NaN is
    involved). *)
Definition within (lo hi x : number) : bool := leb lo x && leb x hi.

End JsNumber.

(** ** The resume data model ([components/dashboard/resume-component]) *)

(** The five category keys, [AdditionalSectionKey]. *)
Module Key.

Inductive t : Type :=
| technicalSkills
| languages
| certificationsTraining
| awards
| creativeTools.

#[global] Instance eq_dec : EqDecision t.
Proof. solve_decision. Defined.

(** The property name a key stands for at run time. *)
Definition name (k : t) : jsstring :=
  match k with
  | technicalSkills => lit "technicalSkills"
  | languages => lit "languages"
  | certificationsTraining => lit "certificationsTraining"
  | awards => lit "awards"
  | creativeTools => lit "creativeTools"
  end.

Definition all : list t :=
  [technicalSkills; languages; certificationsTraining; awards; creativeTools].

(** The key a property name denotes, if any. *)
Definition of_name (n : jsstring) : option t :=
  List.find (fun k => bool_decide (name k = n)) all.

End Key.

(** Modelled from the spec: the constant [DEFAULT_ADDITIONAL_SECTION_ORDER]
    is declared in [resume-component], next to the types; its value is the
    fixed default order the specification gives,
    [technicalSkills, languages, certificationsTraining, awards,
    creativeTools]. *)
Definition DEFAULT_ADDITIONAL_SECTION_ORDER : list jsstring :=
  List.map Key.name Key.all.

(** [Record<AdditionalSectionKey, F>]: one [F] per category key.  With
    [F := jsstring] this is the type of [defaultLabels] and [labelByKey];
    with [F := option jsstring] it is the [Partial] of it, the type of
    [additionalSubsectionLabels]. *)
Module KeyRecord.

Record t (F : Type) : Type := Build {
  technicalSkills : F;
  languages : F;
  certificationsTraining : F;
  awards : F;
  creativeTools : F
}.
Arguments Build {F}.
Arguments technicalSkills {F}.
Arguments languages {F}.
Arguments certificationsTraining {F}.
Arguments awards {F}.
Arguments creativeTools {F}.

(** Typed field selection. *)
Definition at_key {F} (r : t F) (k : Key.t) : F :=
  match k with
  | Key.technicalSkills => technicalSkills r
  | Key.languages => languages r
  | Key.certificationsTraining => certificationsTraining r
  | Key.awards => awards r
  | Key.creativeTools => creativeTools r
  end.

End KeyRecord.

(** What a property read can yield on the objects of this model.  The
    order list of an [AdditionalInfo] is only cast to
    [AdditionalSectionKey[]], never checked, so [additional[key]] and
    [labelByKey[key]] are property reads by an arbitrary name: besides
    the declared fields they reach the members every plain object
    inherits from [Object.prototype]. *)
Inductive value : Type :=
| VUndefined
| VString (s : jsstring)
| VNumber (x : JsNumber.number)
| VStrings (xs : list jsstring)
| VOverrides (labels : KeyRecord.t (option jsstring))
| VFunction (arity : nat)
| VObjectPrototype.

(** The members of [Object.prototype], with the [length] of those that
    are functions ([constructor] is [Object], of length 1). *)
Definition Object_prototype_members : list (string * value) :=
  [ ("constructor", VFunction 1);
    ("__defineGetter__", VFunction 2);
    ("__defineSetter__", VFunction 2);
    ("hasOwnProperty", VFunction 1);
    ("__lookupGetter__", VFunction 1);
    ("__lookupSetter__", VFunction 1);
    ("isPrototypeOf", VFunction 1);
    ("propertyIsEnumerable", VFunction 1);
    ("toString", VFunction 0);
    ("valueOf", VFunction 0);
    ("toLocaleString", VFunction 0);
    ("__proto__", VObjectPrototype) ]%string.

(** A property read that finds no own property: the prototype chain. *)
Definition inherited (n : jsstring) : value :=
  match List.find (fun m => bool_decide (lit (fst m) = n))
                  Object_prototype_members with
  | Some m => snd m
  | None => VUndefined
  end.

(** [r[n]] on a [Record<AdditionalSectionKey, string>] object literal. *)
Definition labels_get (r : KeyRecord.t jsstring) (n : jsstring) : value :=
  match Key.of_name n with
  | Some k => VString (KeyRecord.at_key r k)
  | None => inherited n
  end.

(** Modelled from the spec: the declaration of [AdditionalInfo] is in
    [resume-component]; its fields are the nine the sources read and the
    data model lists, every one optional ([None] is an absent, undefined
    or null field). *)
Module AdditionalInfo.

Record t : Type := Build {
  technicalSkills : option (list jsstring);
  languages : option (list jsstring);
  certificationsTraining : option (list jsstring);
  awards : option (list jsstring);
  creativeTools : option (list jsstring);
  additionalSectionOrder : option (list jsstring);
  additionalSubsectionLabels : option (KeyRecord.t (option jsstring));
  skillsLeftColumnRatio : option JsNumber.number;
  skillsColumnGapRem : option JsNumber.number
}.

(** The item list of a category, typed selection. *)
Definition category (a : t) (k : Key.t) : option (list jsstring) :=
  match k with
  | Key.technicalSkills => technicalSkills a
  | Key.languages => languages a
  | Key.certificationsTraining => certificationsTraining a
  | Key.awards => awards a
  | Key.creativeTools => creativeTools a
  end.

Definition of_option {A} (inj : A -> value) (o : option A) : value :=
  match o with Some x => inj x | None => VUndefined end.

(** [additional[n]] for an arbitrary property name [n]. *)
Definition get (a : t) (n : jsstring) : value :=
  match Key.of_name n with
  | Some k => of_option VStrings (category a k)
  | None =>
      if bool_decide (n = lit "additionalSectionOrder") then
        of_option VStrings (additionalSectionOrder a)
      else if bool_decide (n = lit "additionalSubsectionLabels") then
        of_option VOverrides (additionalSubsectionLabels a)
      else if bool_decide (n = lit "skillsLeftColumnRatio") then
        of_option VNumber (skillsLeftColumnRatio a)
      else if bool_decide (n = lit "skillsColumnGapRem") then
        of_option VNumber (skillsColumnGapRem a)
      else inherited n
  end.

End AdditionalInfo.

(** [v.length], when [v] has one. *)
Definition length_of (v : value) : option nat :=
  match v with
  | VStrings xs => Some (length xs)
  | VString s => Some (length s)
  | VFunction arity => Some arity
  | _ => None
  end.

(** [v ?? []] *)
Definition or_empty (v : value) : value :=
  match v with VUndefined => VStrings [] | _ => v end.

(** [items.length > 0]; comparing [undefined] with [0] is false. *)
Definition length_positive (items : value) : bool :=
  match length_of items with
  | Some n => Nat.ltb 0 n
  | None => false
  end.

(** A row of the additional block, [{ key, label, items }]. *)
Record Row : Type := mkRow {
  key : jsstring;
  label : value;
  items : value
}.

(** What each of the three renderers computes before it emits markup. *)
Record Layout : Type := mkLayout {
  rows : list Row;
  leftRows : list Row;
  rightRows : list Row;
  leftRatio : JsNumber.number;
  gapRem : JsNumber.number
}.

(** The two fractions of the grid template every renderer emits,
    [`${leftRatio}fr ${1 - leftRatio}fr`], and its [columnGap]. *)
Definition gridTemplateColumns (l : Layout) : JsNumber.number * JsNumber.number :=
  (leftRatio l, JsNumber.sub JsNumber.n1 (leftRatio l)).
Definition columnGap (l : Layout) : JsNumber.number := gapRem l.

(** [Math.ceil(n / 2)] for an array length [n]: the quotient [n / 2] is
    exact in binary64, so the ceiling is the integer one. *)
Definition Math_ceil_half (n : nat) : nat :=
  Z.to_nat (- ((- Z.of_nat n) / 2))%Z.

(** [xs.slice(from)] and [xs.slice(0, to)] with indices in range or
    beyond the end (both clamp). *)
Definition slice_from {A} (from : nat) (xs : list A) : list A := skipn from xs.
Definition slice_to {A} (to : nat) (xs : list A) : list A := firstn to xs.

(** [override?.trim() || fallback] *)
Definition label_or (override : option jsstring) (fallback : jsstring) : jsstring :=
  match override with
  | Some s => JsString.or_else (JsString.trim s) fallback
  | None => fallback
  end.

(** [additional.additionalSubsectionLabels?.k] *)
Definition override_of (a : AdditionalInfo.t) (k : Key.t) : option jsstring :=
  match AdditionalInfo.additionalSubsectionLabels a with
  | Some r => KeyRecord.at_key r k
  | None => None
  end.

(** [xs.filter(r => r !== null)] on a list of rows-or-null. *)
Definition filter_non_null {A} (xs : list (option A)) : list A := omap id xs.

(** ** The keyword-highlight view ([HighlightedResumeView]) *)

Module HighlightedResumeView.
Section View.

(** The translation lookup of [useTranslations]. *)
Variable t : jsstring -> jsstring.

Definition defaultLabels : KeyRecord.t jsstring :=
  {| KeyRecord.technicalSkills := t (lit "resume.additional.technicalSkills");
     KeyRecord.languages := t (lit "resume.sections.languages");
     KeyRecord.certificationsTraining := t (lit "resume.sections.certifications");
     KeyRecord.awards := t (lit "resume.sections.awards");
     KeyRecord.creativeTools := t (lit "resume.sections.creativeTools") |}.

Definition order (additional : AdditionalInfo.t) : list jsstring :=
  match AdditionalInfo.additionalSectionOrder additional with
  | Some o => o
  | None => DEFAULT_ADDITIONAL_SECTION_ORDER
  end.

Definition labelByKey (additional : AdditionalInfo.t) : KeyRecord.t jsstring :=
  {| KeyRecord.technicalSkills :=
       label_or (override_of additional Key.technicalSkills)
                (KeyRecord.technicalSkills defaultLabels);
     KeyRecord.languages :=
       label_or (override_of additional Key.languages)
                (KeyRecord.languages defaultLabels);
     KeyRecord.certificationsTraining :=
       label_or (override_of additional Key.certificationsTraining)
                (KeyRecord.certificationsTraining defaultLabels);
     KeyRecord.awards :=
       label_or (override_of additional Key.awards)
                (KeyRecord.awards defaultLabels);
     KeyRecord.creativeTools :=
       label_or (override_of additional Key.creativeTools)
                (KeyRecord.creativeTools defaultLabels) |}.

Definition rows (additional : AdditionalInfo.t) : list Row :=
  filter_non_null
    (List.map
       (fun key =>
          let items := or_empty (AdditionalInfo.get additional key) in
          if length_positive items
          then Some (mkRow key (labels_get (labelByKey additional) key) items)
          else None)
       (order additional)).

(** The body of the skills block: [None] is the [return null] taken when
    no row is left. *)
Definition skills_block (additional : AdditionalInfo.t) : option Layout :=
  let rows := rows additional in
  if Nat.eqb (length rows) 0 then None
  else
    let mid := Math_ceil_half (length rows) in
    let leftRows := slice_to mid rows in
    let rightRows := slice_from mid rows in
    let leftRatio :=
      JsNumber.Math_min JsNumber.n0_75
        (JsNumber.Math_max JsNumber.n0_25
           (JsNumber.nullish (AdditionalInfo.skillsLeftColumnRatio additional)
                             JsNumber.n0_5)) in
    let gapRem :=
      JsNumber.Math_min JsNumber.n2_5
        (JsNumber.Math_max JsNumber.n0_5
           (JsNumber.nullish (AdditionalInfo.skillsColumnGapRem additional)
                             JsNumber.n1_25)) in
    Some (mkLayout rows leftRows rightRows leftRatio gapRem).

(** [resumeData.additional && (() => ...)()] *)
Definition skills (additional : option AdditionalInfo.t) : option Layout :=
  match additional with
  | Some a => skills_block a
  | None => None
  end.

End View.
End HighlightedResumeView.

(** ** The modern two-column template ([ResumeModernTwoColumn]) *)

(** [ResumeSectionHeadings], one [F] per heading, with the fields the
    template's [headingFallbacks] literal lists. *)
Module Headings.

Record t (F : Type) : Type := Build {
  summary : F;
  experience : F;
  education : F;
  projects : F;
  certifications : F;
  skills : F;
  languages : F;
  awards : F;
  creativeTools : F;
  links : F
}.
Arguments Build {F}.
Arguments summary {F}.
Arguments experience {F}.
Arguments education {F}.
Arguments projects {F}.
Arguments certifications {F}.
Arguments skills {F}.
Arguments languages {F}.
Arguments awards {F}.
Arguments creativeTools {F}.
Arguments links {F}.

End Headings.

(** The part of a [SectionMeta] the visibility test reads. *)
Record SectionMeta : Type := mkSectionMeta {
  meta_key : jsstring;
  isVisible : option bool
}.

(** [heading?.field ?? fallback] *)
Definition heading_or {R} (sectionHeadings : option R) (field : R -> option jsstring)
    (fallback : jsstring) : jsstring :=
  match sectionHeadings with
  | Some h => match field h with Some s => s | None => fallback end
  | None => fallback
  end.

Module ResumeModernTwoColumn.
Section Template.

(** The [sectionHeadings] prop, a [Partial<ResumeSectionHeadings>]. *)
Variable sectionHeadings : option (Headings.t (option jsstring)).

(** [getSectionMeta(data)]: every section, hidden ones included. *)
Variable allSections : list SectionMeta.

Definition headingFallbacks : Headings.t jsstring :=
  {| Headings.summary := heading_or sectionHeadings Headings.summary (lit "Summary");
     Headings.experience := heading_or sectionHeadings Headings.experience (lit "Experience");
     Headings.education := heading_or sectionHeadings Headings.education (lit "Education");
     Headings.projects := heading_or sectionHeadings Headings.projects (lit "Projects");
     Headings.certifications :=
       heading_or sectionHeadings Headings.certifications (lit "Training & Certifications");
     Headings.skills := heading_or sectionHeadings Headings.skills (lit "Skills");
     Headings.languages := heading_or sectionHeadings Headings.languages (lit "Languages");
     Headings.awards := heading_or sectionHeadings Headings.awards (lit "Awards");
     Headings.creativeTools :=
       heading_or sectionHeadings Headings.creativeTools (lit "Creative Tools");
     Headings.links := heading_or sectionHeadings Headings.links (lit "Links") |}.

(** [allSections.find(s => s.key === sectionKey)?.isVisible ?? true] *)
Definition isSectionVisible (sectionKey : jsstring) : bool :=
  match List.find (fun s => bool_decide (meta_key s = sectionKey)) allSections with
  | Some section => match isVisible section with Some b => b | None => true end
  | None => true
  end.

(** The certifications section of the main column: its heading and the
    list items it renders, when it renders. *)
Definition main_certifications (additional : option AdditionalInfo.t)
  : option (jsstring * list jsstring) :=
  if isSectionVisible (lit "additional") then
    match additional with
    | Some a =>
        match AdditionalInfo.certificationsTraining a with
        | Some certs =>
            if Nat.ltb 0 (length certs)
            then Some (Headings.certifications headingFallbacks, certs)
            else None
        | None => None
        end
    | None => None
    end
  else None.

Definition order (additional : AdditionalInfo.t) : list jsstring :=
  match AdditionalInfo.additionalSectionOrder additional with
  | Some o => o
  | None => DEFAULT_ADDITIONAL_SECTION_ORDER
  end.

Definition labelByKey (additional : AdditionalInfo.t) : KeyRecord.t jsstring :=
  {| KeyRecord.technicalSkills :=
       label_or (override_of additional Key.technicalSkills)
                (Headings.skills headingFallbacks);
     KeyRecord.languages :=
       label_or (override_of additional Key.languages)
                (Headings.languages headingFallbacks);
     KeyRecord.certificationsTraining :=
       label_or (override_of additional Key.certificationsTraining)
                (Headings.certifications headingFallbacks);
     KeyRecord.awards :=
       label_or (override_of additional Key.awards)
                (Headings.awards headingFallbacks);
     KeyRecord.creativeTools :=
       label_or (override_of additional Key.creativeTools)
                (Headings.creativeTools headingFallbacks) |}.

Definition rows (additional : AdditionalInfo.t) : list Row :=
  filter_non_null
    (List.map
       (fun key =>
          let items := or_empty (AdditionalInfo.get additional key) in
          if length_positive items
          then Some (mkRow key (labels_get (labelByKey additional) key) items)
          else None)
       (order additional)).

(** The body of the sidebar's additional block. *)
Definition additional_block (additional : AdditionalInfo.t) : option Layout :=
  let rows := rows additional in
  if Nat.eqb (length rows) 0 then None
  else
    let mid := Math_ceil_half (length rows) in
    let leftRows := slice_to mid rows in
    let rightRows := slice_from mid rows in
    let leftRatio :=
      JsNumber.Math_min JsNumber.n0_75
        (JsNumber.Math_max JsNumber.n0_25
           (JsNumber.nullish (AdditionalInfo.skillsLeftColumnRatio additional)
                             JsNumber.n0_5)) in
    let gapRem :=
      JsNumber.Math_min JsNumber.n2_5
        (JsNumber.Math_max JsNumber.n0_5
           (JsNumber.nullish (AdditionalInfo.skillsColumnGapRem additional)
                             JsNumber.n1_25)) in
    Some (mkLayout rows leftRows rightRows leftRatio gapRem).

(** [isSectionVisible('additional') && additional && (() => ...)()] *)
Definition sidebar_additional (additional : option AdditionalInfo.t) : option Layout :=
  if isSectionVisible (lit "additional") then
    match additional with
    | Some a => additional_block a
    | None => None
    end
  else None.

End Template.
End ResumeModernTwoColumn.

(** ** The Swiss single-column template ([ResumeSingleColumn]) *)

(** [AdditionalSectionLabels], one [F] per label, with the fields the
    template's [mergedLabels] literal lists. *)
Module SectionLabels.

Record t (F : Type) : Type := Build {
  technicalSkills : F;
  languages : F;
  certifications : F;
  awards : F;
  creativeTools : F
}.
Arguments Build {F}.
Arguments technicalSkills {F}.
Arguments languages {F}.
Arguments certifications {F}.
Arguments awards {F}.
Arguments creativeTools {F}.

End SectionLabels.

Module ResumeSingleColumn.
Section AdditionalSection.

(** The [labels] prop, a [Partial<AdditionalSectionLabels>]. *)
Variable labels : option (SectionLabels.t (option jsstring)).

Definition mergedLabels : SectionLabels.t jsstring :=
  {| SectionLabels.technicalSkills :=
       heading_or labels SectionLabels.technicalSkills (lit "Technical Skills:");
     SectionLabels.languages :=
       heading_or labels SectionLabels.languages (lit "Languages:");
     SectionLabels.certifications :=
       heading_or labels SectionLabels.certifications (lit "Certifications:");
     SectionLabels.awards :=
       heading_or labels SectionLabels.awards (lit "Awards:");
     SectionLabels.creativeTools :=
       heading_or labels SectionLabels.creativeTools (lit "Creative Tools:") |}.

Definition order (additional : AdditionalInfo.t) : list jsstring :=
  match AdditionalInfo.additionalSectionOrder additional with
  | Some o => o
  | None => DEFAULT_ADDITIONAL_SECTION_ORDER
  end.

Definition labelByKey (additional : AdditionalInfo.t) : KeyRecord.t jsstring :=
  {| KeyRecord.technicalSkills :=
       label_or (override_of additional Key.technicalSkills)
                (SectionLabels.technicalSkills mergedLabels);
     KeyRecord.languages :=
       label_or (override_of additional Key.languages)
                (SectionLabels.languages mergedLabels);
     KeyRecord.certificationsTraining :=
       label_or (override_of additional Key.certificationsTraining)
                (SectionLabels.certifications mergedLabels);
     KeyRecord.awards :=
       label_or (override_of additional Key.awards)
                (SectionLabels.awards mergedLabels);
     KeyRecord.creativeTools :=
       label_or (override_of additional Key.creativeTools)
                (SectionLabels.creativeTools mergedLabels) |}.

Definition rows (additional : AdditionalInfo.t) : list Row :=
  filter_non_null
    (List.map
       (fun key =>
          let items := or_empty (AdditionalInfo.get additional key) in
          if length_positive items
          then Some (mkRow key (labels_get (labelByKey additional) key) items)
          else None)
       (order additional)).

(** The component from [if (!additional) return null] on. *)
Definition AdditionalSection (additional : option AdditionalInfo.t) : option Layout :=
  match additional with
  | None => None
  | Some additional =>
      let rows := rows additional in
      if Nat.eqb (length rows) 0 then None
      else
        let mid := Math_ceil_half (length rows) in
        let leftRows := slice_to mid rows in
        let rightRows := slice_from mid rows in
        let leftRatio :=
          JsNumber.Math_min JsNumber.n0_75
            (JsNumber.Math_max JsNumber.n0_25
               (JsNumber.nullish (AdditionalInfo.skillsLeftColumnRatio additional)
                                 JsNumber.n0_5)) in
        let gapRem :=
          JsNumber.Math_min JsNumber.n2_5
            (JsNumber.Math_max JsNumber.n0_5
               (JsNumber.nullish (AdditionalInfo.skillsColumnGapRem additional)
                                 JsNumber.n1_25)) in
        Some (mkLayout rows leftRows rightRows leftRatio gapRem)
  end.

End AdditionalSection.
End ResumeSingleColumn.

(** ** The three renderers side by side *)

(** A renderer of the additional block together with what it takes its
    default labels from. *)
Inductive Renderer : Type :=
| Highlight (t : jsstring -> jsstring)
| ModernTwoColumn (sectionHeadings : option (Headings.t (option jsstring)))
| SingleColumn (labels : option (SectionLabels.t (option jsstring))).

(** The layout a renderer computes for an [AdditionalInfo] once it gets
    to the block. *)
Definition resolve (r : Renderer) (additional : AdditionalInfo.t) : option Layout :=
  match r with
  | Highlight t => HighlightedResumeView.skills_block t additional
  | ModernTwoColumn sectionHeadings =>
      ResumeModernTwoColumn.additional_block sectionHeadings additional
  | SingleColumn labels =>
      ResumeSingleColumn.AdditionalSection labels (Some additional)
  end.

(** The table of default labels a renderer falls back to. *)
Definition default_labels (r : Renderer) : KeyRecord.t jsstring :=
  match r with
  | Highlight t => HighlightedResumeView.defaultLabels t
  | ModernTwoColumn sectionHeadings =>
      let h := ResumeModernTwoColumn.headingFallbacks sectionHeadings in
      {| KeyRecord.technicalSkills := Headings.skills h;
         KeyRecord.languages := Headings.languages h;
         KeyRecord.certificationsTraining := Headings.certifications h;
         KeyRecord.awards := Headings.awards h;
         KeyRecord.creativeTools := Headings.creativeTools h |}
  | SingleColumn labels =>
      let m := ResumeSingleColumn.mergedLabels labels in
      {| KeyRecord.technicalSkills := SectionLabels.technicalSkills m;
         KeyRecord.languages := SectionLabels.languages m;
         KeyRecord.certificationsTraining := SectionLabels.certifications m;
         KeyRecord.awards := SectionLabels.awards m;
         KeyRecord.creativeTools := SectionLabels.creativeTools m |}
  end.

(** The clamp of the specification: [lo] below [lo], [hi] above [hi],
    the value itself in between. *)
Definition clamp (x lo hi : JsNumber.number) : JsNumber.number :=
  if JsNumber.ltb x lo then lo
  else if JsNumber.ltb hi x then hi
  else x.

(** The computation the three copies share, with the table of default
    labels as its parameter: the [resolveLayout(additional, defaultLabels)]
    of the interface description.  It is the common form the copies are
    compared through. *)
Definition resolved_order (additional : AdditionalInfo.t) : list jsstring :=
  match AdditionalInfo.additionalSectionOrder additional with
  | Some o => o
  | None => DEFAULT_ADDITIONAL_SECTION_ORDER
  end.

Definition resolved_labels (defaultLabels : KeyRecord.t jsstring)
    (additional : AdditionalInfo.t) : KeyRecord.t jsstring :=
  {| KeyRecord.technicalSkills :=
       label_or (override_of additional Key.technicalSkills)
                (KeyRecord.technicalSkills defaultLabels);
     KeyRecord.languages :=
       label_or (override_of additional Key.languages)
                (KeyRecord.languages defaultLabels);
     KeyRecord.certificationsTraining :=
       label_or (override_of additional Key.certificationsTraining)
                (KeyRecord.certificationsTraining defaultLabels);
     KeyRecord.awards :=
       label_or (override_of additional Key.awards)
                (KeyRecord.awards defaultLabels);
     KeyRecord.creativeTools :=
       label_or (override_of additional Key.creativeTools)
                (KeyRecord.creativeTools defaultLabels) |}.

Definition row_of (defaultLabels : KeyRecord.t jsstring)
    (additional : AdditionalInfo.t) (key : jsstring) : option Row :=
  let items := or_empty (AdditionalInfo.get additional key) in
  if length_positive items
  then Some (mkRow key (labels_get (resolved_labels defaultLabels additional) key) items)
  else None.

Definition resolved_rows (defaultLabels : KeyRecord.t jsstring)
    (additional : AdditionalInfo.t) : list Row :=
  omap (row_of defaultLabels additional) (resolved_order additional).

Definition resolveLayout (defaultLabels : KeyRecord.t jsstring)
    (additional : AdditionalInfo.t) : option Layout :=
  match resolved_rows defaultLabels additional with
  | [] => None
  | rows =>
      let mid := Math_ceil_half (length rows) in
      Some (mkLayout rows (take mid rows) (drop mid rows)
              (clamp (JsNumber.nullish (AdditionalInfo.skillsLeftColumnRatio additional)
                                       JsNumber.n0_5)
                     JsNumber.n0_25 JsNumber.n0_75)
              (clamp (JsNumber.nullish (AdditionalInfo.skillsColumnGapRem additional)
                                       JsNumber.n1_25)
                     JsNumber.n0_5 JsNumber.n2_5))
  end.

(** The rows of a resolution, none when the block is left out. *)
Definition rows_of (o : option Layout) : list Row :=
  match o with Some l => rows l | None => [] end.

(** ** The object store *)

(** The renderers above only read their data, so they are given its
    typed reading.  The forms receive their [data] by reference and
    answer with a call to [onChange]; whether they build a new object or
    write into the one they were given is a matter of the store, so the
    handlers run on one.  Objects and arrays live in cells, a reference is
    the index of a cell, allocation appends, and an object is the finite
    map of its own properties. *)
Module Store.

Definition loc : Type := nat.

Inductive value : Type :=
| Undefined
| Null
| Str (s : jsstring)
| Num (x : JsNumber.number)
| Ref (l : loc).

Inductive object : Type :=
| Obj (props : gmap jsstring value)
| Arr (elems : list value).

Abbreviation store := (list object).

(** Computations on the store; [None] is a run that leaves the declared
    types (a dangling reference, an array where an object is declared). *)
Definition M (A : Type) : Type := store -> option (A * store).

Definition ret {A} (x : A) : M A := fun h => Some (x, h).

Definition bind {A B} (m : M A) (k : A -> M B) : M B :=
  fun h => match m h with Some (x, h') => k x h' | None => None end.

Definition stuck {A} : M A := fun _ => None.

Declare Scope store_scope.
Delimit Scope store_scope with store.
Notation "'let*' x ':=' m 'in' k" := (bind m (fun x => k))
  (at level 10, x name, m at level 100, k at level 200) : store_scope.
Notation "m ';;' k" := (bind m (fun _ => k))
  (at level 100, k at level 200, right associativity) : store_scope.
Local Open Scope store_scope.

Definition alloc (o : object) : M loc := fun h => Some (length h, h ++ [o]).

Definition load (l : loc) : M object :=
  fun h => match h !! l with Some o => Some (o, h) | None => None end.

Definition write (l : loc) (o : object) : M unit :=
  fun h => if Nat.ltb l (length h) then Some (tt, <[l := o]> h) else None.

Definition load_obj (l : loc) : M (gmap jsstring value) :=
  let* o := load l in
  match o with Obj props => ret props | Arr _ => stuck end.

Definition load_arr (l : loc) : M (list value) :=
  let* o := load l in
  match o with Arr elems => ret elems | Obj _ => stuck end.

(** [o.k] on a plain object: an absent property reads as [undefined]. *)
Definition get (props : gmap jsstring value) (k : jsstring) : value :=
  match props !! k with Some v => v | None => Undefined end.

(** [v ?? d] *)
Definition nullish (v d : value) : value :=
  match v with Undefined | Null => d | _ => v end.

(** [a === b] *)
Definition strict_equal (a b : value) : bool :=
  match a, b with
  | Undefined, Undefined => true
  | Null, Null => true
  | Str s, Str s' => bool_decide (s = s')
  | Num x, Num y => SFeqb x y
  | Ref l, Ref l' => Nat.eqb l l'
  | _, _ => false
  end.

(** [xs.indexOf(v)], with [None] for [-1]. *)
Fixpoint indexOf (xs : list value) (v : value) : option nat :=
  match xs with
  | [] => None
  | x :: xs' =>
      if strict_equal x v then Some 0
      else match indexOf xs' v with Some i => Some (S i) | None => None end
  end.

(** [{...v}]: the own properties of an object, none for [undefined],
    [null] and numbers. *)
Definition spread (v : value) : M (gmap jsstring value) :=
  match v with
  | Undefined | Null | Num _ => ret ∅
  | Ref l => load_obj l
  | Str _ => stuck
  end.

(** [xs.splice(start, deleteCount, ...items)] on the array at [l]: the
    array is rewritten in place, the removed elements are returned. *)
Definition splice (l : loc) (start deleteCount : nat) (items : list value)
  : M (list value) :=
  let* elems := load_arr l in
  write l (Arr (take start elems ++ items ++ drop (start + deleteCount) elems)) ;;
  ret (take deleteCount (drop start elems)).

(** [const [first] = xs] *)
Definition first_of (xs : list value) : value :=
  match xs with x :: _ => x | [] => Undefined end.

(** The names under which a plain object finds a member of
    [Object.prototype] when it has no property of that name itself. *)
Definition Object_prototype_names : list jsstring :=
  List.map (fun m => lit (fst m)) Object_prototype_members.

(** What [o[k]] yields for a computed name [k]: a value of the store, or
    the member of [Object.prototype] of that name (a function, and the
    prototype object itself for [__proto__]). *)
Inductive property : Type :=
| Plain (v : value)
| Builtin (name : jsstring).

(** [o[k]] on a plain object: the own property first, then the
    prototype chain. *)
Definition get_computed (props : gmap jsstring value) (k : jsstring) : property :=
  match props !! k with
  | Some v => Plain v
  | None =>
      if bool_decide (k ∈ Object_prototype_names) then Builtin k
      else Plain Undefined
  end.

(** [delete o[k]] on the object at [l]: only an own property goes. *)
Definition delete_prop (l : loc) (k : jsstring) : M unit :=
  let* props := load_obj l in write l (Obj (delete k props)).

(** The own properties of a plain object after [o[k] = v].  An own
    property is overwritten.  Without one, the name [__proto__] reaches
    the setter inherited from [Object.prototype], which ignores every
    value that is neither an object nor [null] and otherwise replaces the
    prototype, which this store does not record ([None]); any other name
    becomes a new own property (the data members of [Object.prototype]
    are writable, so they are shadowed). *)
Definition assign (props : gmap jsstring value) (k : jsstring) (v : value)
  : option (gmap jsstring value) :=
  match props !! k with
  | Some _ => Some (<[k := v]> props)
  | None =>
      if bool_decide (k = lit "__proto__") then
        match v with
        | Ref _ | Null => None
        | _ => Some props
        end
      else Some (<[k := v]> props)
  end.

(** [o[k] = v] on the object at [l]. *)
Definition set_prop (l : loc) (k : jsstring) (v : value) : M unit :=
  let* props := load_obj l in
  match assign props k v with
  | Some props' => write l (Obj props')
  | None => stuck
  end.

End Store.

(** ** The additional-info form ([AdditionalForm]) *)

(** The part of a [DragEndEvent] the handler reads: the id of the
    dragged row and the id of the row it was dropped on, if any. *)
Record DragEndEvent : Type := mkDragEndEvent {
  active : jsstring;
  over : option jsstring
}.

Module AdditionalForm.
Import Store.
Local Open Scope store_scope.
Section Component.

(** The module-level array [ADDITIONAL_FIELD_KEYS], which is
    [DEFAULT_ADDITIONAL_SECTION_ORDER] itself, and the [data] prop. *)
Variable ADDITIONAL_FIELD_KEYS : loc.
Variable data : loc.

(** A handler answers with the argument it passes to [onChange], or
    with [None] when it returns without calling it. *)

(** [const order = data.additionalSectionOrder ?? ADDITIONAL_FIELD_KEYS] *)
Definition order : M value :=
  let* d := load_obj data in
  ret (nullish (get d (lit "additionalSectionOrder")) (Ref ADDITIONAL_FIELD_KEYS)).

Definition handleArrayChange (field value : jsstring) : M (option Store.value) :=
  let pieces := JsString.split_on 10 value in
  alloc (Arr (Str <$> pieces)) ;;
  let* items :=
    alloc (Arr (Str <$> List.filter
                  (fun item => negb (bool_decide (JsString.trim item = [])))
                  pieces)) in
  let* d := load_obj data in
  let* o := alloc (Obj (<[field := Ref items]> d)) in
  ret (Some (Ref o)).

Definition handleSubsectionLabelChange (key value : jsstring) : M (option Store.value) :=
  let* d := load_obj data in
  let* own := spread (get d (lit "additionalSubsectionLabels")) in
  let* next := alloc (Obj own) in
  (if bool_decide (JsString.trim value = [])
   then delete_prop next key
   else set_prop next key (Str value)) ;;
  let* keys := load_obj next in
  let* d := load_obj data in
  let* o :=
    alloc (Obj (<[lit "additionalSubsectionLabels" :=
                   if Nat.eqb (size keys) 0 then Undefined else Ref next]> d)) in
  ret (Some (Ref o)).

Definition handleDragEnd (event : DragEndEvent) : M (option Store.value) :=
  match over event with
  | None => ret None
  | Some over_id =>
      if bool_decide (active event = over_id) then ret None
      else
        let* order := order in
        let* elems :=
          match order with Ref l => load_arr l | _ => stuck end in
        match indexOf elems (Str (active event)), indexOf elems (Str over_id) with
        | Some oldIndex, Some newIndex =>
            let* newOrder := alloc (Arr elems) in
            let* removed := splice newOrder oldIndex 1 [] in
            splice newOrder newIndex 0 [first_of removed] ;;
            let* d := load_obj data in
            let* o :=
              alloc (Obj (<[lit "additionalSectionOrder" := Ref newOrder]> d)) in
            ret (Some (Ref o))
        | _, _ => ret None
        end
  end.

(** [raw] is [Number(e.target.value)]. *)
Definition handleColumnRatioChange (raw : JsNumber.number) : M (option Store.value) :=
  let value := JsNumber.div raw (JsNumber.of_Z 100) in
  let* d := load_obj data in
  let* o := alloc (Obj (<[lit "skillsLeftColumnRatio" := Num value]> d)) in
  ret (Some (Ref o)).

Definition handleColumnGapChange (raw : JsNumber.number) : M (option Store.value) :=
  let* d := load_obj data in
  let* o := alloc (Obj (<[lit "skillsColumnGapRem" := Num raw]> d)) in
  ret (Some (Ref o)).

End Component.
End AdditionalForm.

(** ** The personal-info form ([PersonalInfoForm]) *)

Module PersonalInfoForm.
Import Store.
Local Open Scope store_scope.
Section Component.

Variable data : loc.

Definition handleChange (field value : jsstring) : M (option Store.value) :=
  let* d := load_obj data in
  let* o := alloc (Obj (<[field := Str value]> d)) in
  ret (Some (Ref o)).

End Component.
End PersonalInfoForm.

(** ** Edits *)

(** One user edit: a handler of one of the two forms with its
    arguments. *)
Inductive Edit : Type :=
| ArrayChange (field value : jsstring)
| SubsectionLabelChange (key value : jsstring)
| DragEnd (event : DragEndEvent)
| ColumnRatioChange (raw : JsNumber.number)
| ColumnGapChange (raw : JsNumber.number)
| PersonalChange (field value : jsstring).

(** The property of [data] an edit is about. *)
Definition edited_field (e : Edit) : jsstring :=
  match e with
  | ArrayChange field _ => field
  | SubsectionLabelChange _ _ => lit "additionalSubsectionLabels"
  | DragEnd _ => lit "additionalSectionOrder"
  | ColumnRatioChange _ => lit "skillsLeftColumnRatio"
  | ColumnGapChange _ => lit "skillsColumnGapRem"
  | PersonalChange field _ => field
  end.

Definition run (ADDITIONAL_FIELD_KEYS data : Store.loc) (e : Edit)
  : Store.M (option Store.value) :=
  match e with
  | ArrayChange field value => AdditionalForm.handleArrayChange data field value
  | SubsectionLabelChange key value =>
      AdditionalForm.handleSubsectionLabelChange data key value
  | DragEnd event => AdditionalForm.handleDragEnd ADDITIONAL_FIELD_KEYS data event
  | ColumnRatioChange raw => AdditionalForm.handleColumnRatioChange data raw
  | ColumnGapChange raw => AdditionalForm.handleColumnGapChange data raw
  | PersonalChange field value => PersonalInfoForm.handleChange data field value
  end.

(** What the declared types promise about the parts of [data] a handler
    dereferences: the label overrides are absent or an object, the order
    is absent or an array. *)
Definition labels_well_typed (h : Store.store) (d : gmap jsstring Store.value) : Prop :=
  match Store.get d (lit "additionalSubsectionLabels") with
  | Store.Ref l => exists props, h !! l = Some (Store.Obj props)
  | Store.Str _ => False
  | _ => True
  end.

Definition order_well_typed (keys : Store.loc) (h : Store.store)
    (d : gmap jsstring Store.value) : Prop :=
  exists l elems,
    Store.nullish (Store.get d (lit "additionalSectionOrder")) (Store.Ref keys)
    = Store.Ref l
    /\ h !! l = Some (Store.Arr elems).

Definition applicable (keys : Store.loc) (h : Store.store)
    (d : gmap jsstring Store.value) (e : Edit) : Prop :=
  match e with
  | SubsectionLabelChange _ _ => labels_well_typed h d
  | DragEnd _ => order_well_typed keys h d
  | _ => True
  end.

(** ** The keyword segmenter ([lib/utils/keyword-matcher]) *)

(** Modelled from the spec: the module [lib/utils/keyword-matcher], of
    which the view only imports [segmentTextByKeywords].  Everything in
    this module follows the written contract of the segmenter. *)
Module KeywordMatcher.

(** Modelled from the spec: a [Segment] is [{ text, isMatch }], a piece
    of the text and whether it is a keyword match. *)
Record Segment : Type := mkSegment {
  text : jsstring;
  isMatch : bool
}.

Section Segmenter.

(** The case normalisation of a code unit and the test for the
    characters that make up an alphanumeric run; the contract leaves both
    to the implementation. *)
Variable fold_case : N -> N.
Variable is_alphanumeric : N -> bool.

Definition same_ignoring_case (a b : jsstring) : bool :=
  bool_decide (fold_case <$> a = fold_case <$> b).

(** The keyword [kw] is a prefix of [rest], up to case. *)
Definition occurs_at (kw rest : jsstring) : bool :=
  Nat.leb (length kw) (length rest)
  && same_ignoring_case kw (take (length kw) rest).

(** Two neighbouring characters belong to one alphanumeric run. *)
Definition joined (a b : option N) : bool :=
  match a, b with
  | Some x, Some y => is_alphanumeric x && is_alphanumeric y
  | _, _ => false
  end.

(** The first [n] characters of [rest], preceded by [prev], are not
    interior to a larger alphanumeric run: no run continues across the
    left or the right end. *)
Definition free_standing (prev : option N) (rest : jsstring) (n : nat) : bool :=
  negb (joined prev (head rest))
  && negb (joined (last (take n rest)) (head (drop n rest))).

(** The length of the match of [kw] at the head of [rest], [0] for no
    match. *)
Definition match_length (prev : option N) (rest kw : jsstring) : nat :=
  if occurs_at kw rest && free_standing prev rest (length kw)
  then length kw else 0.

(** The longest match of any keyword at the head of [rest]. *)
Definition longest_match (keywords : gset jsstring) (prev : option N)
    (rest : jsstring) : nat :=
  foldr Nat.max 0 (match_length prev rest <$> elements keywords).

(** The unmatched text gathered so far, as a segment if there is any. *)
Definition flush (plain : jsstring) : list Segment :=
  match plain with [] => [] | _ => [mkSegment plain false] end.

(** The left-to-right scan: [prev] is the character before [rest],
    [plain] the unmatched text since the last match.  At a match the
    scan resumes right after the matched span. *)
Equations? scan (keywords : gset jsstring) (prev : option N)
    (rest plain : jsstring) : list Segment by wf (length rest) lt :=
  scan keywords prev [] plain := flush plain;
  scan keywords prev (c :: rest') plain
    with longest_match keywords prev (c :: rest') => {
    | 0 => scan keywords (Some c) rest' (plain ++ [c]);
    | S n =>
        flush plain
        ++ mkSegment (take (S n) (c :: rest')) true
           :: scan keywords (last (take (S n) (c :: rest'))) (drop n rest') [] }.
Proof.
  all: cbn; try lia. rewrite length_drop. lia.
Qed.

(** Modelled from the spec: [segmentTextByKeywords] is imported from
    [lib/utils/keyword-matcher].  Following its contract: no keywords or
    an empty text give the whole text as one unmatched segment; otherwise
    the text is scanned from left to right, a keyword matches up to case
    and only where it is not interior to a larger alphanumeric run, the
    longest match at a position wins, and the scan resumes right after a
    matched span. *)
Definition segment (text : jsstring) (keywords : gset jsstring) : list Segment :=
  if bool_decide (keywords = ∅) || bool_decide (text = [])
  then [mkSegment text false]
  else scan keywords None text [].

End Segmenter.

(** ASCII letters and digits, and the lower-casing of ASCII letters. *)
Definition ascii_lower (c : N) : N :=
  if ((65 <=? c) && (c <=? 90))%N then (c + 32)%N else c.

Definition ascii_alphanumeric (c : N) : bool :=
  (((48 <=? c) && (c <=? 57)) || ((65 <=? c) && (c <=? 90))
   || ((97 <=? c) && (c <=? 122)))%N.

Definition segmentTextByKeywords : jsstring -> gset jsstring -> list Segment :=
  segment ascii_lower ascii_alphanumeric.

(** The text the segments spell out when put back together. *)
Definition concatenation (segments : list Segment) : jsstring :=
  concat (List.map text segments).

End KeywordMatcher.

(** ** Sample data *)

Module Samples.

Definition blank : AdditionalInfo.t :=
  AdditionalInfo.Build None None None None None None None None None.

(** One technical skill, nothing else. *)
Definition go_only : AdditionalInfo.t :=
  AdditionalInfo.Build (Some [lit "Go"]) (Some []) None None None None None None None.

(** [go_only] with the given left-column ratio. *)
Definition with_ratio (x : JsNumber.number) : AdditionalInfo.t :=
  AdditionalInfo.Build (Some [lit "Go"]) (Some []) None None None None None (Some x) None.

(** [go_only] with the given column gap. *)
Definition with_gap (x : JsNumber.number) : AdditionalInfo.t :=
  AdditionalInfo.Build (Some [lit "Go"]) (Some []) None None None None None None (Some x).

(** Skills, certifications and awards, with the order
    [["awards", "technicalSkills"]] and a blank label override for the
    awards. *)
Definition awards_first : AdditionalInfo.t :=
  {| AdditionalInfo.technicalSkills := Some [lit "Go"; lit "Rust"];
     AdditionalInfo.languages := None;
     AdditionalInfo.certificationsTraining := Some [lit "AWS"];
     AdditionalInfo.awards := Some [lit "Prize"];
     AdditionalInfo.creativeTools := None;
     AdditionalInfo.additionalSectionOrder := Some [lit "awards"; lit "technicalSkills"];
     AdditionalInfo.additionalSubsectionLabels :=
       Some (KeyRecord.Build None None None (Some (lit "   ")) None);
     AdditionalInfo.skillsLeftColumnRatio := None;
     AdditionalInfo.skillsColumnGapRem := None |}.

(** The same categories in the default order. *)
Definition default_order : AdditionalInfo.t :=
  {| AdditionalInfo.technicalSkills := Some [lit "Go"; lit "Rust"];
     AdditionalInfo.languages := None;
     AdditionalInfo.certificationsTraining := Some [lit "AWS"];
     AdditionalInfo.awards := Some [lit "Prize"];
     AdditionalInfo.creativeTools := None;
     AdditionalInfo.additionalSectionOrder := None;
     AdditionalInfo.additionalSubsectionLabels := None;
     AdditionalInfo.skillsLeftColumnRatio := None;
     AdditionalInfo.skillsColumnGapRem := None |}.

(** No category has an item; the order names one of the object's other
    fields. *)
Definition stray_entry : AdditionalInfo.t :=
  AdditionalInfo.Build None None None None None
    (Some [lit "additionalSectionOrder"]) None None None.

(** A translation table that answers with the English headings of the
    two-column template. *)
Definition t_english (k : jsstring) : jsstring :=
  if bool_decide (k = lit "resume.additional.technicalSkills") then lit "Skills"
  else if bool_decide (k = lit "resume.sections.languages") then lit "Languages"
  else if bool_decide (k = lit "resume.sections.certifications")
       then lit "Training & Certifications"
  else if bool_decide (k = lit "resume.sections.awards") then lit "Awards"
  else if bool_decide (k = lit "resume.sections.creativeTools") then lit "Creative Tools"
  else k.

(** A store with the default order in cell 0, an item list in cell 1
    and, in cell 2, an [AdditionalInfo] object that holds that list as its
    [technicalSkills] and has no order of its own. *)
Definition form_store : Store.store :=
  [ Store.Arr (Store.Str <$> DEFAULT_ADDITIONAL_SECTION_ORDER);
    Store.Arr [Store.Str (lit "Go")];
    Store.Obj {[ lit "technicalSkills" := Store.Ref 1 ]} ].

Definition form_data : gmap jsstring Store.value :=
  {[ lit "technicalSkills" := Store.Ref 1 ]}.

End Samples.

(* ================================================================== *)
(** * Part I, continued. The rest of the templates and of the forms     *)
(* ================================================================== *)

(** ** More string operations *)

Module JsText.

(** [s.startsWith(prefix)] *)
Fixpoint startsWith (s prefix : jsstring) : bool :=
  match prefix, s with
  | [], _ => true
  | p :: prefix', c :: s' => (c =? p)%N && startsWith s' prefix'
  | _ :: _, [] => false
  end.

(** [s.replace(/^https?:\/\//, '')] *)
Definition drop_scheme (s : jsstring) : jsstring :=
  if startsWith s (lit "https://") then drop 8 s
  else if startsWith s (lit "http://") then drop 7 s
  else s.

(** [s.replace(/^www\./, '')] *)
Definition drop_www (s : jsstring) : jsstring :=
  if startsWith s (lit "www.") then drop 4 s else s.

(** [s.replace(/\/$/, '')]: one slash at the very end. *)
Definition drop_final_slash (s : jsstring) : jsstring :=
  match rev s with
  | c :: r => if (c =? 47)%N then rev r else s
  | [] => s
  end.

(** [xs.join(sep)] on an array of strings. *)
Fixpoint join (sep : jsstring) (xs : list jsstring) : jsstring :=
  match xs with
  | [] => []
  | x :: xs' =>
      match xs' with
      | [] => x
      | _ :: _ => x ++ sep ++ join sep xs'
      end
  end.

(** Truthiness of an optional string. *)
Definition present (s : option jsstring) : bool :=
  match s with Some v => JsString.truthy v | None => false end.

(** [labels.includes(label)] *)
Definition includes (labels : list jsstring) (label : jsstring) : bool :=
  existsb (fun l => bool_decide (l = label)) labels.

End JsText.

(** ** Contact details and link pills (all three templates) *)

(** [PersonalInfo], with the fields the form edits and the templates
    read. *)
Module PersonalInfo.

Record t : Type := Build {
  name : option jsstring;
  title : option jsstring;
  email : option jsstring;
  phone : option jsstring;
  location : option jsstring;
  website : option jsstring;
  linkedin : option jsstring;
  github : option jsstring
}.

End PersonalInfo.

Module Contact.
Import JsText.

(** What [renderContactDetail] puts next to the optional icon: an anchor
    with its [href], or a plain span. *)
Inductive ContactDetail : Type :=
| Anchor (href displayText : jsstring)
| Span (displayText : jsstring).

(** The closure [renderContactDetail(label, value, hrefPrefix = '')],
    which the three templates define word for word alike.  [None] is the
    [null] of an empty value; the icon and the class names are left
    out. *)
Definition renderContactDetail (label : jsstring) (value : option jsstring)
    (hrefPrefix : option jsstring) : option ContactDetail :=
  match value with
  | None => None
  | Some value =>
      if negb (JsString.truthy value) then None
      else
        let hrefPrefix := match hrefPrefix with Some p => p | None => [] end in
        let finalHrefPrefix :=
          if includes [lit "Website"; lit "LinkedIn"; lit "GitHub"] label
             && negb (startsWith value (lit "http"))
             && negb (startsWith value (lit "//"))
          then lit "https://"
          else hrefPrefix in
        let href := finalHrefPrefix ++ value in
        let isLink :=
          startsWith finalHrefPrefix (lit "http")
          || startsWith finalHrefPrefix (lit "mailto:")
          || startsWith finalHrefPrefix (lit "tel:") in
        let displayText :=
          if isLink && (bool_decide (label = lit "LinkedIn")
                        || bool_decide (label = lit "GitHub")
                        || bool_decide (label = lit "Website"))
          then drop_www (drop_scheme value)
          else value in
        Some (if isLink then Anchor href displayText else Span displayText)
  end.

(** A piece of a contact line: the comma span or a detail. *)
Inductive ContactToken : Type :=
| Comma
| Detail (d : ContactDetail).

Definition rendered (d : option ContactDetail) : list ContactToken :=
  match d with Some d => [Detail d] | None => [] end.

(** [{field && (<> <span>,</span> {renderContactDetail(...)} </>)}] *)
Definition after_comma (field : option jsstring) (label : jsstring)
    (hrefPrefix : option jsstring) : list ContactToken :=
  if present field
  then Comma :: rendered (renderContactDetail label field hrefPrefix)
  else [].

(** The contact line of the header in the two single-column templates
    ([ResumeSingleColumn] and [ResumeModern]). *)
Definition contact_line (personalInfo : PersonalInfo.t) : list ContactToken :=
  rendered (renderContactDetail (lit "Email") (PersonalInfo.email personalInfo)
              (Some (lit "mailto:")))
  ++ after_comma (PersonalInfo.phone personalInfo) (lit "Phone") (Some (lit "tel:"))
  ++ after_comma (PersonalInfo.location personalInfo) (lit "Location") None
  ++ after_comma (PersonalInfo.website personalInfo) (lit "Website") None
  ++ after_comma (PersonalInfo.linkedin personalInfo) (lit "LinkedIn") None
  ++ after_comma (PersonalInfo.github personalInfo) (lit "GitHub") None.

(** The header of the two-column template: the six details, no commas. *)
Definition two_column_header (personalInfo : PersonalInfo.t) : list ContactDetail :=
  omap id
    [ renderContactDetail (lit "Email") (PersonalInfo.email personalInfo)
        (Some (lit "mailto:"));
      renderContactDetail (lit "Phone") (PersonalInfo.phone personalInfo)
        (Some (lit "tel:"));
      renderContactDetail (lit "Location") (PersonalInfo.location personalInfo) None;
      renderContactDetail (lit "Website") (PersonalInfo.website personalInfo) None;
      renderContactDetail (lit "LinkedIn") (PersonalInfo.linkedin personalInfo) None;
      renderContactDetail (lit "GitHub") (PersonalInfo.github personalInfo) None ].

(** The links section of the two-column sidebar: rendered when one of
    the three links is there, LinkedIn first, then GitHub, then the
    website. *)
Definition links_section (personalInfo : option PersonalInfo.t)
  : option (list ContactDetail) :=
  match personalInfo with
  | None => None
  | Some p =>
      if present (PersonalInfo.website p) || present (PersonalInfo.linkedin p)
         || present (PersonalInfo.github p)
      then
        Some (
          (if present (PersonalInfo.linkedin p)
           then omap id [renderContactDetail (lit "LinkedIn") (PersonalInfo.linkedin p) None]
           else [])
          ++ (if present (PersonalInfo.github p)
              then omap id [renderContactDetail (lit "GitHub") (PersonalInfo.github p) None]
              else [])
          ++ (if present (PersonalInfo.website p)
              then omap id [renderContactDetail (lit "Website") (PersonalInfo.website p) None]
              else []))
      else None
  end.

(** The link pill of a project: the [href] of its anchor and the text
    it shows, for [project.github] and [project.website] alike. *)
Definition pill_href (value : jsstring) : jsstring :=
  if startsWith value (lit "http") then value else lit "https://" ++ value.

Definition pill_text (value : jsstring) : jsstring :=
  drop_final_slash (drop_www (drop_scheme value)).

End Contact.

(** ** The modern single-column template ([ResumeModern]) *)

(** A [SectionMeta] with the further fields the section renderers
    read. *)
Record SectionInfo : Type := mkSectionInfo {
  section_key : jsstring;
  displayName : jsstring;
  sectionType : jsstring;
  isDefault : bool
}.

(** A custom section: what [resumeData.customSections[key]] holds.  The
    entries of an item list are of no concern here and stay abstract. *)
Record CustomSection (Item : Type) : Type := mkCustomSection {
  custom_text : option jsstring;
  custom_items : option (list Item);
  custom_strings : option (list jsstring)
}.
Arguments mkCustomSection {Item}.
Arguments custom_text {Item}.
Arguments custom_items {Item}.
Arguments custom_strings {Item}.

(** The body of a custom section. *)
Inductive DynamicContent (Item : Type) : Type :=
| Paragraph (text : jsstring)
| ItemList (items : list Item)
| StringList (joined : jsstring).
Arguments Paragraph {Item}.
Arguments ItemList {Item}.
Arguments StringList {Item}.

Module ResumeModern.
Section Template.

Variable Item : Type.

(** [Boolean(s?.trim())] *)
Definition has_text (s : option jsstring) : bool :=
  match s with Some v => JsString.truthy (JsString.trim v) | None => false end.

(** [Boolean(xs?.length)] *)
Definition has_length {A} (xs : option (list A)) : bool :=
  match xs with Some l => Nat.ltb 0 (length l) | None => false end.

Definition renderDynamicContent (sectionType : jsstring)
    (customSection : CustomSection Item) : option (DynamicContent Item) :=
  if bool_decide (sectionType = lit "text") then
    match custom_text customSection with
    | Some text => if JsString.truthy (JsString.trim text)
                   then Some (Paragraph text) else None
    | None => None
    end
  else if bool_decide (sectionType = lit "itemList") then
    match custom_items customSection with
    | Some items => if Nat.ltb 0 (length items) then Some (ItemList items) else None
    | None => None
    end
  else if bool_decide (sectionType = lit "stringList") then
    match custom_strings customSection with
    | Some strings =>
        if Nat.ltb 0 (length strings)
        then Some (StringList (JsText.join (lit ", ") strings)) else None
    | None => None
    end
  else None.

Definition hasContent (sectionType : jsstring) (customSection : CustomSection Item)
  : bool :=
  if bool_decide (sectionType = lit "text") then has_text (custom_text customSection)
  else if bool_decide (sectionType = lit "itemList")
       then has_length (custom_items customSection)
  else if bool_decide (sectionType = lit "stringList")
       then has_length (custom_strings customSection)
  else false.

(** [DynamicResumeSectionModern]: the heading and the body of a custom
    section, or [None] for [null]. *)
Definition DynamicResumeSectionModern (sectionMeta : SectionInfo)
    (customSections : option (gmap jsstring (CustomSection Item)))
  : option (jsstring * option (DynamicContent Item)) :=
  match customSections with
  | None => None
  | Some sections =>
      match sections !! section_key sectionMeta with
      | None => None
      | Some customSection =>
          if negb (hasContent (sectionType sectionMeta) customSection) then None
          else Some (displayName sectionMeta,
                     renderDynamicContent (sectionType sectionMeta) customSection)
      end
  end.

(** The [labels] prop of the template's own [AdditionalSection]. *)
Variable labels : option (SectionLabels.t (option jsstring)).

Definition mergedLabels : SectionLabels.t jsstring :=
  {| SectionLabels.technicalSkills :=
       heading_or labels SectionLabels.technicalSkills (lit "Technical Skills:");
     SectionLabels.languages :=
       heading_or labels SectionLabels.languages (lit "Languages:");
     SectionLabels.certifications :=
       heading_or labels SectionLabels.certifications (lit "Certifications:");
     SectionLabels.awards :=
       heading_or labels SectionLabels.awards (lit "Awards:");
     SectionLabels.creativeTools :=
       heading_or labels SectionLabels.creativeTools (lit "Creative Tools:") |}.

Definition order (additional : AdditionalInfo.t) : list jsstring :=
  match AdditionalInfo.additionalSectionOrder additional with
  | Some o => o
  | None => DEFAULT_ADDITIONAL_SECTION_ORDER
  end.

Definition labelByKey (additional : AdditionalInfo.t) : KeyRecord.t jsstring :=
  {| KeyRecord.technicalSkills :=
       label_or (override_of additional Key.technicalSkills)
                (SectionLabels.technicalSkills mergedLabels);
     KeyRecord.languages :=
       label_or (override_of additional Key.languages)
                (SectionLabels.languages mergedLabels);
     KeyRecord.certificationsTraining :=
       label_or (override_of additional Key.certificationsTraining)
                (SectionLabels.certifications mergedLabels);
     KeyRecord.awards :=
       label_or (override_of additional Key.awards)
                (SectionLabels.awards mergedLabels);
     KeyRecord.creativeTools :=
       label_or (override_of additional Key.creativeTools)
                (SectionLabels.creativeTools mergedLabels) |}.

Definition rows (additional : AdditionalInfo.t) : list Row :=
  filter_non_null
    (List.map
       (fun key =>
          let items := or_empty (AdditionalInfo.get additional key) in
          if length_positive items
          then Some (mkRow key (labels_get (labelByKey additional) key) items)
          else None)
       (order additional)).

Definition AdditionalSection (additional : option AdditionalInfo.t) : option Layout :=
  match additional with
  | None => None
  | Some additional =>
      let rows := rows additional in
      if Nat.eqb (length rows) 0 then None
      else
        let mid := Math_ceil_half (length rows) in
        let leftRows := slice_to mid rows in
        let rightRows := slice_from mid rows in
        let leftRatio :=
          JsNumber.Math_min JsNumber.n0_75
            (JsNumber.Math_max JsNumber.n0_25
               (JsNumber.nullish (AdditionalInfo.skillsLeftColumnRatio additional)
                                 JsNumber.n0_5)) in
        let gapRem :=
          JsNumber.Math_min JsNumber.n2_5
            (JsNumber.Math_max JsNumber.n0_5
               (JsNumber.nullish (AdditionalInfo.skillsColumnGapRem additional)
                                 JsNumber.n1_25)) in
        Some (mkLayout rows leftRows rightRows leftRatio gapRem)
  end.

End Template.
End ResumeModern.

(** What a row shows: [`${label}:`] is markup, the items are joined by
    [", "].  Only rows of string items can be joined. *)
Definition row_text (row : Row) : option jsstring :=
  match items row with
  | VStrings xs => Some (JsText.join (lit ", ") xs)
  | _ => None
  end.

(** ** The additional-info form: what it shows *)

Module JsMath.
Import JsNumber.

Definition mul (x y : number) : number := SFmul prec emax x y.

(** [Math.round(x)]: the nearest integer, ties towards [+Infinity]; a
    result of zero keeps the sign of [x]. *)
Definition Math_round (x : number) : number :=
  match x with
  | S754_finite s m e =>
      if (0 <=? e)%Z then x
      else
        let scaled := (2 * cond_Zopp s (Z.pos m) + 2 ^ (- e))%Z in
        let n := (scaled / 2 ^ (- e + 1))%Z in
        if (n =? 0)%Z then S754_zero s else of_Z n
  | _ => x
  end.

End JsMath.

Module AdditionalFormView.
Import Store.
Local Open Scope store_scope.

Definition getLabelKey (key : jsstring) : jsstring :=
  if bool_decide (key = lit "technicalSkills") then lit "resume.additional.technicalSkills"
  else if bool_decide (key = lit "languages") then lit "resume.sections.languages"
  else if bool_decide (key = lit "certificationsTraining")
       then lit "resume.sections.certifications"
  else if bool_decide (key = lit "awards") then lit "resume.sections.awards"
  else if bool_decide (key = lit "creativeTools") then lit "resume.sections.creativeTools"
  else key.

Definition getPlaceholderKey (key : jsstring) : jsstring :=
  let base := lit "builder.additionalForm.placeholders." in
  if bool_decide (key = lit "technicalSkills") then base ++ lit "technicalSkills"
  else if bool_decide (key = lit "languages") then base ++ lit "languages"
  else if bool_decide (key = lit "certificationsTraining") then base ++ lit "certifications"
  else if bool_decide (key = lit "awards") then base ++ lit "awards"
  else if bool_decide (key = lit "creativeTools") then base ++ lit "creativeTools"
  else base ++ lit "technicalSkills".

(** The strings of an array of strings. *)
Fixpoint strings_of (elems : list Store.value) : option (list jsstring) :=
  match elems with
  | [] => Some []
  | Str s :: elems' =>
      match strings_of elems' with Some ss => Some (s :: ss) | None => None end
  | _ :: _ => None
  end.

(** [formatArray(arr) = arr?.join('\n') || ''], for [arr] a [string[]]
    or absent. *)
Definition formatArray (arr : Store.value) : M jsstring :=
  match arr with
  | Undefined | Null => ret []
  | Ref l =>
      let* elems := load_arr l in
      match strings_of elems with
      | Some ss => ret (JsString.or_else (JsText.join [10%N] ss) [])
      | None => stuck
      end
  | _ => stuck
  end.

Section Component.

Variable data : loc.

(** [value={formatArray(data[key])}], the content of the text area of
    a row.  A member of [Object.prototype] has no [join] to call. *)
Definition textarea_value (key : jsstring) : M jsstring :=
  let* d := load_obj data in
  match get_computed d key with
  | Plain v => formatArray v
  | Builtin _ => stuck
  end.



(** An optional number field with its default. *)
Definition number_or (v : Store.value) (dflt : JsNumber.number) : M JsNumber.number :=
  match v with
  | Undefined | Null => ret dflt
  | Num x => ret x
  | _ => stuck
  end.

Definition leftRatioPercent : M JsNumber.number :=
  let* d := load_obj data in
  let* ratio := number_or (get d (lit "skillsLeftColumnRatio")) JsNumber.n0_5 in
  ret (JsMath.Math_round
         (JsMath.mul
            (JsNumber.Math_min JsNumber.n0_75 (JsNumber.Math_max JsNumber.n0_25 ratio))
            (JsNumber.of_Z 100))).

Definition gapRem : M JsNumber.number :=
  let* d := load_obj data in
  let* gap := number_or (get d (lit "skillsColumnGapRem")) JsNumber.n1_25 in
  ret (JsNumber.Math_min JsNumber.n2_5 (JsNumber.Math_max JsNumber.n0_5 gap)).

End Component.

(** The positions of the two range inputs: [min=25 max=75 step=5] and
    [min=0.5 max=2.5 step=0.25]. *)
Definition ratio_positions : list JsNumber.number :=
  List.map (fun k => JsNumber.of_Z (25 + 5 * Z.of_nat k)) (seq 0 11).

Definition gap_positions : list JsNumber.number :=
  List.map (fun k => JsNumber.decimal (50 + 25 * Z.of_nat k) 100) (seq 0 9).

End AdditionalFormView.

(** ** More sample data *)

Module MoreSamples.

Definition hobbies_meta : SectionInfo :=
  mkSectionInfo (lit "hobbies") (lit "Hobbies") (lit "stringList") false.

Definition hobbies : option (gmap jsstring (CustomSection unit)) :=
  Some {[ lit "hobbies" := mkCustomSection None None (Some [lit "Chess"; lit "Go"]) ]}.

(** A person with a name and a telephone number and nothing else. *)
Definition phone_only : PersonalInfo.t :=
  PersonalInfo.Build (Some (lit "Ada")) None None (Some (lit "555 0100"))
    None None None None.

(** A person with an e-mail address and a LinkedIn page. *)
Definition linked : PersonalInfo.t :=
  PersonalInfo.Build (Some (lit "Ada")) None (Some (lit "ada@example.org")) None
    None None (Some (lit "www.linkedin.com/in/ada")) None.

(** A store whose [AdditionalInfo] object, in cell 3, has two technical
    skills (cell 1) and a label override for the awards (cell 2). *)
Definition labelled_store : Store.store :=
  [ Store.Arr (Store.Str <$> DEFAULT_ADDITIONAL_SECTION_ORDER);
    Store.Arr [Store.Str (lit "Go"); Store.Str (lit "Rust")];
    Store.Obj {[ lit "awards" := Store.Str (lit "Prizes") ]};
    Store.Obj (<[ lit "technicalSkills" := Store.Ref 1 ]>
                 {[ lit "additionalSubsectionLabels" := Store.Ref 2 ]}) ].

Definition labelled_data : gmap jsstring Store.value :=
  <[ lit "technicalSkills" := Store.Ref 1 ]>
    {[ lit "additionalSubsectionLabels" := Store.Ref 2 ]}.

End MoreSamples.

(* ================================================================== *)
(** * Part II. Properties                                               *)
(* ================================================================== *)

(** ** Strings: trimming *)

Module JsStringFacts.
Import JsString.

Lemma trimStart_blank (s : jsstring) :
  List.forallb is_white_space s = true -> trimStart s = [].
Proof.
  induction s as [|c s IH]; [reflexivity|]. cbn.
  destruct (is_white_space c); [exact IH|discriminate].
Qed.

(** A string of white space only trims to the empty string. *)
Lemma trim_blank (s : jsstring) :
  List.forallb is_white_space s = true -> trim s = [].
Proof. intros H. unfold trim. now rewrite (trimStart_blank s H). Qed.

(** What is left after trimming starts with no white space. *)
Lemma trimStart_head (s : jsstring) (c : N) (s' : jsstring) :
  trimStart s = c :: s' -> is_white_space c = false.
Proof.
  induction s as [|x s IH]; [discriminate|]. cbn.
  destruct (is_white_space x) eqn:E; [exact IH|]. now intros [= <- _].
Qed.

Example trim_inner_blanks_kept :
  trim (lit "  Core  Skills ") = lit "Core  Skills".
Proof. reflexivity. Qed.

Example split_on_newline :
  split_on 10 [71; 111; 10; 10; 67]%N = [[71; 111]; []; [67]]%N.
Proof. reflexivity. Qed.

End JsStringFacts.

(** ** Numbers: the clamp idiom *)

Module JsNumberFacts.
Import JsNumber.

Lemma compare_Eq_finite s1 m1 e1 s2 m2 e2 :
  SFcompare (S754_finite s1 m1 e1) (S754_finite s2 m2 e2) = Some Eq ->
  S754_finite s1 m1 e1 = S754_finite s2 m2 e2.
Proof.
  cbn. intros H. injection H as H.
  destruct s1, s2; try discriminate.
  - destruct (Z.compare_spec e1 e2); try discriminate. subst e2.
    destruct (Pos.compare_cont Eq m1 m2) eqn:Hm; try discriminate.
    apply Pos.compare_eq in Hm. now subst.
  - destruct (Z.compare_spec e1 e2); try discriminate. subst e2.
    destruct (Pos.compare_cont Eq m1 m2) eqn:Hm; try discriminate.
    apply Pos.compare_eq in Hm. now subst.
Qed.

Lemma compare_Eq_finite_l s m e x :
  SFcompare (S754_finite s m e) x = Some Eq -> x = S754_finite s m e.
Proof.
  destruct x as [sx|sx| |sx mx ex]; try (destruct s; discriminate);
    try (destruct s, sx; discriminate); try discriminate.
  intros H. symmetry. now apply compare_Eq_finite.
Qed.

Lemma compare_Eq_finite_r s m e x :
  SFcompare x (S754_finite s m e) = Some Eq -> x = S754_finite s m e.
Proof.
  destruct x as [sx|sx| |sx mx ex]; try (destruct s; discriminate);
    try (destruct s, sx; discriminate); try discriminate.
  intros H. now apply compare_Eq_finite.
Qed.

Lemma compare_antisym x y :
  SFcompare y x = option_map CompOpp (SFcompare x y).
Proof.
  destruct x as [sx|sx| |sx mx ex], y as [sy|sy| |sy my ey];
    try reflexivity; try (destruct sx; reflexivity);
    try (destruct sy; reflexivity);
    try (destruct sx, sy; reflexivity).
  cbn. f_equal.
  destruct sx, sy; try reflexivity;
    rewrite (Z.compare_antisym ex ey);
    destruct (Z.compare ex ey); cbn; try reflexivity;
    rewrite (Pos.compare_cont_antisym mx my Eq); reflexivity.
Qed.

Lemma compare_refl_finite s m e :
  SFcompare (S754_finite s m e) (S754_finite s m e) = Some Eq.
Proof.
  cbn. destruct s; rewrite Z.compare_refl, Pos.compare_cont_refl; reflexivity.
Qed.

Lemma compare_some x y :
  is_NaN x = false -> is_NaN y = false -> exists c, SFcompare x y = Some c.
Proof.
  destruct x, y; cbn; try discriminate; intros _ _; eexists; reflexivity.
Qed.

Section Clamp.

(** Two finite positive bounds, [lo] strictly below [hi]. *)
Variables (ml mh : positive) (el eh : Z).
Let lo := S754_finite false ml el.
Let hi := S754_finite false mh eh.
Hypothesis lo_lt_hi : ltb lo hi = true.

Lemma compare_lo_hi : SFcompare lo hi = Some Lt.
Proof using lo_lt_hi.
  revert lo_lt_hi. unfold ltb, SFltb.
  destruct (SFcompare lo hi) as [[]|]; congruence.
Qed.

Lemma compare_hi_lo : SFcompare hi lo = Some Gt.
Proof using lo_lt_hi. rewrite compare_antisym, compare_lo_hi. reflexivity. Qed.

(** [Math.min(hi, Math.max(lo, x))] is the clamp of [x], NaN included. *)
Lemma min_max_clamp x : Math_min hi (Math_max lo x) = clamp x lo hi.
Proof using lo_lt_hi.
  pose proof compare_lo_hi as Hlh. pose proof compare_hi_lo as Hhl.
  unfold Math_min, Math_max, clamp, ltb, SFltb.
  destruct (is_NaN x) eqn:Hnan.
  { destruct x; try discriminate. reflexivity. }
  destruct (compare_some lo x eq_refl Hnan) as [c1 Hc1].
  pose proof (compare_antisym lo x) as Hxl. rewrite Hc1 in Hxl. cbn [option_map] in Hxl.
  rewrite Hc1, Hxl.
  assert (Hz : is_neg_zero lo && is_pos_zero x = false) by reflexivity.
  rewrite Hz. clear Hz. cbn [is_NaN lo orb].
  destruct c1; cbn [CompOpp orb].
  - (* x = lo *)
    assert (x = lo) as -> by (eapply compare_Eq_finite_l; exact Hc1).
    cbn [is_NaN hi lo orb]. fold lo hi. rewrite Hlh, Hhl. reflexivity.
  - (* lo < x *)
    rewrite Hnan. cbn [is_NaN hi orb].
    destruct (compare_some x hi Hnan eq_refl) as [c2 Hc2].
    pose proof (compare_antisym x hi) as Hhx. rewrite Hc2 in Hhx. cbn [option_map] in Hhx.
    rewrite Hc2, Hhx.
    assert (Hz : is_pos_zero hi && is_neg_zero x = false) by reflexivity.
    rewrite Hz. clear Hz.
    destruct c2; cbn [CompOpp orb]; try reflexivity.
    symmetry. eapply compare_Eq_finite_r. exact Hc2.
  - (* x < lo *)
    cbn [is_NaN hi lo orb]. fold lo hi. rewrite Hlh. reflexivity.
Qed.

(** Away from NaN the clamp lands between the bounds. *)
Lemma clamp_within x : is_NaN x = false -> within lo hi (clamp x lo hi) = true.
Proof using lo_lt_hi.
  intros Hnan.
  pose proof compare_lo_hi as Hlh.
  unfold within, clamp, leb, ltb, SFleb, SFltb.
  destruct (compare_some x lo Hnan eq_refl) as [c1 Hc1].
  pose proof (compare_antisym x lo) as Hlx. rewrite Hc1 in Hlx. cbn [option_map] in Hlx.
  rewrite Hc1.
  destruct c1.
  - destruct (compare_some hi x eq_refl Hnan) as [c2 Hc2].
    pose proof (compare_antisym hi x) as Hxh. rewrite Hc2 in Hxh. cbn [option_map] in Hxh.
    rewrite Hc2. destruct c2.
    + rewrite Hlx, Hxh. reflexivity.
    + unfold hi at 1 2. rewrite compare_refl_finite. fold hi.
      rewrite Hlh. reflexivity.
    + rewrite Hlx, Hxh. reflexivity.
  - unfold lo at 1 2 3. rewrite compare_refl_finite. fold lo.
    rewrite Hlh. reflexivity.
  - destruct (compare_some hi x eq_refl Hnan) as [c2 Hc2].
    pose proof (compare_antisym hi x) as Hxh. rewrite Hc2 in Hxh. cbn [option_map] in Hxh.
    rewrite Hc2. destruct c2.
    + rewrite Hlx, Hxh. reflexivity.
    + unfold hi at 1 2. rewrite compare_refl_finite. fold hi.
      rewrite Hlh. reflexivity.
    + rewrite Hlx, Hxh. reflexivity.
Qed.

(** NaN goes through the idiom unchanged. *)
Lemma min_max_NaN : Math_min hi (Math_max lo NaN) = NaN.
Proof. reflexivity. Qed.

End Clamp.

End JsNumberFacts.

(** ** The three copies of the resolver compute one function *)

Module LayoutFacts.
Import JsNumber.

Lemma omap_id_map {A B} (f : A -> option B) (xs : list A) :
  filter_non_null (List.map f xs) = omap f xs.
Proof.
  unfold filter_non_null. induction xs as [|x xs IH]; [reflexivity|].
  cbn. destruct (f x); cbn; now rewrite IH.
Qed.

Lemma ratio_idiom x : Math_min n0_75 (Math_max n0_25 x) = clamp x n0_25 n0_75.
Proof. apply JsNumberFacts.min_max_clamp. reflexivity. Qed.

Lemma gap_idiom x : Math_min n2_5 (Math_max n0_5 x) = clamp x n0_5 n2_5.
Proof. apply JsNumberFacts.min_max_clamp. reflexivity. Qed.

Lemma finish_common (rs : list Row) (x y : option number) :
  (if Nat.eqb (length rs) 0 then None
   else Some (mkLayout rs (slice_to (Math_ceil_half (length rs)) rs)
                (slice_from (Math_ceil_half (length rs)) rs)
                (Math_min n0_75 (Math_max n0_25 (nullish x n0_5)))
                (Math_min n2_5 (Math_max n0_5 (nullish y n1_25)))))
  = match rs with
    | [] => None
    | _ => Some (mkLayout rs (take (Math_ceil_half (length rs)) rs)
                   (drop (Math_ceil_half (length rs)) rs)
                   (clamp (nullish x n0_5) n0_25 n0_75)
                   (clamp (nullish y n1_25) n0_5 n2_5))
    end.
Proof.
  rewrite ratio_idiom, gap_idiom. destruct rs; reflexivity.
Qed.

Lemma rows_highlight t a :
  HighlightedResumeView.rows t a
  = resolved_rows (HighlightedResumeView.defaultLabels t) a.
Proof. unfold HighlightedResumeView.rows. now rewrite omap_id_map. Qed.

Lemma rows_modern sh a :
  ResumeModernTwoColumn.rows sh a
  = resolved_rows (default_labels (ModernTwoColumn sh)) a.
Proof. unfold ResumeModernTwoColumn.rows. now rewrite omap_id_map. Qed.

Lemma rows_single labels a :
  ResumeSingleColumn.rows labels a
  = resolved_rows (default_labels (SingleColumn labels)) a.
Proof. unfold ResumeSingleColumn.rows. now rewrite omap_id_map. Qed.

(** Each renderer is the shared computation at its own default labels. *)
Lemma resolve_common r a : resolve r a = resolveLayout (default_labels r) a.
Proof.
  destruct r as [t|sh|labels]; cbn [resolve].
  - unfold HighlightedResumeView.skills_block. cbv zeta.
    rewrite rows_highlight, finish_common. unfold resolveLayout.
    cbn [default_labels]. now destruct (resolved_rows _ a).
  - unfold ResumeModernTwoColumn.additional_block. cbv zeta.
    rewrite rows_modern, finish_common. unfold resolveLayout.
    now destruct (resolved_rows _ a).
  - unfold ResumeSingleColumn.AdditionalSection. cbv zeta.
    rewrite rows_single, finish_common. unfold resolveLayout.
    now destruct (resolved_rows _ a).
Qed.

(** *** What a resolution consists of *)

Lemma rows_of_resolveLayout d a : rows_of (resolveLayout d a) = resolved_rows d a.
Proof. unfold resolveLayout. now destruct (resolved_rows d a). Qed.

Lemma resolveLayout_None d a : resolveLayout d a = None <-> resolved_rows d a = [].
Proof. unfold resolveLayout. destruct (resolved_rows d a); split; congruence. Qed.

Lemma resolveLayout_Some d a l :
  resolveLayout d a = Some l ->
  rows l = resolved_rows d a
  /\ rows l <> []
  /\ leftRows l = take (Math_ceil_half (length (rows l))) (rows l)
  /\ rightRows l = drop (Math_ceil_half (length (rows l))) (rows l)
  /\ leftRatio l =
       clamp (nullish (AdditionalInfo.skillsLeftColumnRatio a) n0_5) n0_25 n0_75
  /\ gapRem l =
       clamp (nullish (AdditionalInfo.skillsColumnGapRem a) n1_25) n0_5 n2_5.
Proof.
  unfold resolveLayout. destruct (resolved_rows d a) as [|r rs] eqn:E; [discriminate|].
  intros [= <-]. cbn [rows leftRows rightRows leftRatio gapRem].
  repeat split; congruence.
Qed.

Lemma Math_ceil_half_bounds n :
  n <= 2 * Math_ceil_half n /\ 2 * Math_ceil_half n <= n + 1.
Proof.
  unfold Math_ceil_half.
  pose proof (Z.div_mod (- Z.of_nat n) 2 ltac:(lia)) as Hdm.
  pose proof (Z.mod_pos_bound (- Z.of_nat n) 2 ltac:(lia)) as Hb.
  lia.
Qed.

Lemma Math_ceil_half_le n : Math_ceil_half n <= n.
Proof.
  unfold Math_ceil_half.
  pose proof (Z.div_mod (- Z.of_nat n) 2 ltac:(lia)) as Hdm.
  pose proof (Z.mod_pos_bound (- Z.of_nat n) 2 ltac:(lia)) as Hb.
  lia.
Qed.

(** *** Rows, entry by entry *)

Lemma of_name_name k : Key.of_name (Key.name k) = Some k.
Proof. destruct k; reflexivity. Qed.

Lemma of_name_Some n k : Key.of_name n = Some k -> n = Key.name k.
Proof.
  unfold Key.of_name. intros H. apply List.find_some in H as [_ H].
  apply bool_decide_eq_true in H. congruence.
Qed.

Lemma labels_get_name d k : labels_get d (Key.name k) = VString (KeyRecord.at_key d k).
Proof. unfold labels_get. now rewrite of_name_name. Qed.

Lemma get_name a k :
  AdditionalInfo.get a (Key.name k)
  = AdditionalInfo.of_option VStrings (AdditionalInfo.category a k).
Proof. unfold AdditionalInfo.get. now rewrite of_name_name. Qed.

Lemma at_key_resolved_labels d a k :
  KeyRecord.at_key (resolved_labels d a) k
  = label_or (override_of a k) (KeyRecord.at_key d k).
Proof. destruct k; reflexivity. Qed.

(** The row of an entry that is a category key. *)
Lemma row_of_name d a k :
  row_of d a (Key.name k)
  = match AdditionalInfo.category a k with
    | Some (i :: rest) =>
        Some (mkRow (Key.name k)
                (VString (label_or (override_of a k) (KeyRecord.at_key d k)))
                (VStrings (i :: rest)))
    | _ => None
    end.
Proof.
  unfold row_of. rewrite get_name, labels_get_name, at_key_resolved_labels.
  destruct (AdditionalInfo.category a k) as [[|i rest]|]; reflexivity.
Qed.

(** An entry that names no property at all yields no row. *)
Lemma row_of_undefined d a n :
  AdditionalInfo.get a n = VUndefined -> row_of d a n = None.
Proof. unfold row_of. now intros ->. Qed.

Lemma key_row_of d a n row : row_of d a n = Some row -> key row = n.
Proof.
  unfold row_of. destruct (length_positive _); [|discriminate]. now intros [= <-].
Qed.

Lemma keys_resolved_rows d a :
  List.map key (resolved_rows d a)
  = List.filter (fun n => length_positive (or_empty (AdditionalInfo.get a n)))
                (resolved_order a).
Proof.
  unfold resolved_rows. induction (resolved_order a) as [|n ns IH]; [reflexivity|].
  cbn. unfold row_of at 1.
  destruct (length_positive (or_empty (AdditionalInfo.get a n))); cbn; now rewrite IH.
Qed.

End LayoutFacts.

(** ** The additional block *)

Module AdditionalLayout.
Import JsNumber LayoutFacts.

(** C1. For one [AdditionalInfo] and one table of default labels, the
    keyword-highlight view and the two templates compute the same
    resolution: the same rows (key, label, items) in the same order, the
    same left and right columns, the same clamped ratio and the same
    clamped gap. *)
Theorem renderers_agree (r1 r2 : Renderer) (a : AdditionalInfo.t) :
  default_labels r1 = default_labels r2 ->
  resolve r1 a = resolve r2 a.
Proof. intros Hd. rewrite !resolve_common. now rewrite Hd. Qed.

Lemma renderers_agree_witness :
  resolve (Highlight Samples.t_english) Samples.awards_first
  = resolve (ModernTwoColumn None) Samples.awards_first.
Proof. apply renderers_agree. reflexivity. Defined.

(** C2. The filtered row list of an [AdditionalInfo] is what remains
    of the order when every entry is mapped to its row or to [null] and
    the [null]s are dropped.  Whenever that list is not empty, of length
    [n], the resolver yields a layout whose rows are that list, whose left
    column is its first [ceil(n/2)] rows and whose right column is the
    remaining [n - ceil(n/2)] rows, each in the order of the list: left
    then right is the filtered row list again.  Here [ceil(n/2)] is
    [(n + 1) / 2], the one [m] with [n <= 2m <= n + 1]. *)
Theorem split_is_ordered_bisection (r : Renderer) (a : AdditionalInfo.t)
    (filtered : list Row) :
  filter_non_null (List.map (row_of (default_labels r) a) (resolved_order a))
  = filtered ->
  filtered <> [] ->
  exists l,
    resolve r a = Some l
    /\ rows l = filtered
    /\ leftRows l = take ((length filtered + 1) / 2) filtered
    /\ rightRows l = drop ((length filtered + 1) / 2) filtered
    /\ leftRows l ++ rightRows l = filtered
    /\ length (leftRows l) = (length filtered + 1) / 2
    /\ length (rightRows l) = length filtered - (length filtered + 1) / 2
    /\ length filtered <= 2 * ((length filtered + 1) / 2) <= length filtered + 1.
Proof.
  rewrite omap_id_map. fold (resolved_rows (default_labels r) a).
  intros Hrows Hne. rewrite resolve_common.
  destruct (resolveLayout (default_labels r) a) as [l|] eqn:E.
  - apply resolveLayout_Some in E as (Hl & _ & Hleft & Hright & _).
    rewrite Hrows in Hl. rewrite Hl in Hleft, Hright.
    assert (Hmid : Math_ceil_half (length filtered) = (length filtered + 1) / 2).
    { pose proof (Math_ceil_half_bounds (length filtered)) as [Hlo Hhi].
      apply (Nat.div_unique _ 2 _
                         (length filtered + 1 - 2 * Math_ceil_half (length filtered)));
        lia. }
    rewrite Hmid in Hleft, Hright.
    assert (Hm : (length filtered + 1) / 2 <= length filtered).
    { rewrite <- Hmid. apply Math_ceil_half_le. }
    pose proof (Math_ceil_half_bounds (length filtered)) as Hb. rewrite Hmid in Hb.
    exists l. split; [reflexivity|]. split; [exact Hl|].
    split; [exact Hleft|]. split; [exact Hright|].
    split; [rewrite Hleft, Hright; apply take_drop|].
    split; [rewrite Hleft, length_take; lia|].
    split; [rewrite Hright, length_drop; lia|exact Hb].
  - apply resolveLayout_None in E. congruence.
Qed.

Lemma split_is_ordered_bisection_witness :
  exists l,
    resolve (SingleColumn None) Samples.default_order = Some l
    /\ List.map key (rows l)
       = [lit "technicalSkills"; lit "certificationsTraining"; lit "awards"]
    /\ List.map key (leftRows l) = [lit "technicalSkills"; lit "certificationsTraining"]
    /\ List.map key (rightRows l) = [lit "awards"].
Proof.
  destruct (split_is_ordered_bisection (SingleColumn None) Samples.default_order _
              eq_refl)
    as (l & Hres & Hrows & Hleft & Hright & _).
  - vm_compute. discriminate.
  - exists l. split; [exact Hres|].
    rewrite Hrows, Hleft, Hright. repeat split.
Defined.

(** C3, as the code has it. Whenever a block is rendered, the left
    ratio is [clamp(skillsLeftColumnRatio ?? 0.5, 0.25, 0.75)], the right
    fraction is [1 - leftRatio] and the gap is
    [clamp(skillsColumnGapRem ?? 1.25, 0.5, 2.5)]; a ratio that is
    missing or any number other than NaN resolves into [0.25, 0.75], a
    gap that is missing or any number other than NaN into [0.5, 2.5];
    [0.9] resolves to [0.75] and [0.1] to [0.25]. *)
Theorem layout_parameters_clamped (r : Renderer) (a : AdditionalInfo.t) (l : Layout) :
  resolve r a = Some l ->
  let ratio := nullish (AdditionalInfo.skillsLeftColumnRatio a) n0_5 in
  let gap := nullish (AdditionalInfo.skillsColumnGapRem a) n1_25 in
  leftRatio l = clamp ratio n0_25 n0_75
  /\ gridTemplateColumns l = (leftRatio l, sub n1 (leftRatio l))
  /\ columnGap l = clamp gap n0_5 n2_5
  /\ (is_NaN ratio = false -> within n0_25 n0_75 (leftRatio l) = true)
  /\ (is_NaN gap = false -> within n0_5 n2_5 (columnGap l) = true)
  /\ (ratio = n0_9 -> leftRatio l = n0_75)
  /\ (ratio = n0_1 -> leftRatio l = n0_25).
Proof.
  rewrite resolve_common. intros H ratio gap.
  apply resolveLayout_Some in H as (_ & _ & _ & _ & Hratio & Hgap).
  fold ratio in Hratio. fold gap in Hgap. unfold columnGap.
  repeat split.
  - exact Hratio.
  - exact Hgap.
  - intros Hn. rewrite Hratio. now apply JsNumberFacts.clamp_within.
  - intros Hn. rewrite Hgap. now apply JsNumberFacts.clamp_within.
  - intros E. rewrite Hratio, E. reflexivity.
  - intros E. rewrite Hratio, E. reflexivity.
Qed.

Lemma layout_parameters_clamped_witness :
  exists l, resolve (Highlight Samples.t_english) (Samples.with_ratio n0_9) = Some l
    /\ leftRatio l = n0_75
    /\ within n0_25 n0_75 (leftRatio l) = true
    /\ within n0_5 n2_5 (columnGap l) = true.
Proof.
  eexists. split; [reflexivity|].
  pose proof (layout_parameters_clamped (Highlight Samples.t_english)
                (Samples.with_ratio n0_9) _ eq_refl)
    as (_ & _ & _ & Hin & Hgap & H09 & _).
  split; [exact (H09 eq_refl)|]. split; [exact (Hin eq_refl)|exact (Hgap eq_refl)].
Defined.

(** C3 as stated fails on NaN: a [skillsLeftColumnRatio] of NaN goes
    through [Math.max] and [Math.min] unchanged, so the resolved ratio is
    NaN and does not lie in [0.25, 0.75]. *)
Lemma ratio_NaN_not_clamped :
  exists l, resolve (Highlight Samples.t_english) (Samples.with_ratio NaN) = Some l
    /\ leftRatio l = NaN
    /\ within n0_25 n0_75 (leftRatio l) = false.
Proof. eexists. repeat split. Qed.

(** The row an order entry stands for when it is read as a category:
    the row of that category if it has items, nothing otherwise. *)
Lemma resolved_rows_tame d a :
  Forall (fun n => is_Some (Key.of_name n) \/ AdditionalInfo.get a n = VUndefined)
         (resolved_order a) ->
  resolved_rows d a
  = omap (fun n =>
            match Key.of_name n with
            | Some k =>
                match AdditionalInfo.category a k with
                | Some (i :: rest) =>
                    Some (mkRow n (VString (label_or (override_of a k)
                                                     (KeyRecord.at_key d k)))
                                (VStrings (i :: rest)))
                | _ => None
                end
            | None => None
            end)
         (resolved_order a).
Proof.
  unfold resolved_rows. induction 1 as [|n ns Hn _ IH]; [reflexivity|].
  cbn [omap list_omap]. rewrite IH.
  destruct Hn as [[k Hk]|Hu].
  - rewrite Hk. apply of_name_Some in Hk. subst n. now rewrite row_of_name.
  - rewrite (row_of_undefined _ _ _ Hu). unfold AdditionalInfo.get in Hu.
    destruct (Key.of_name n) as [k|]; [|reflexivity].
    now destruct (AdditionalInfo.category a k) as [[|]|].
Qed.

(** C4, as the code has it. When every entry of the order is a category
    key or names no property of the object at all, the rows are exactly
    the rows of the entries whose category has items, in the order of the
    list: an empty or missing category and a name without a property
    give no row and no error; and when, on top of that, no category has
    an item, there is no row and the block is left out. *)
Theorem rows_follow_order (r : Renderer) (a : AdditionalInfo.t) :
  Forall (fun n => is_Some (Key.of_name n) \/ AdditionalInfo.get a n = VUndefined)
         (resolved_order a) ->
  rows_of (resolve r a)
  = omap (fun n =>
            match Key.of_name n with
            | Some k =>
                match AdditionalInfo.category a k with
                | Some (i :: rest) =>
                    Some (mkRow n (VString (label_or (override_of a k)
                                              (KeyRecord.at_key (default_labels r) k)))
                                (VStrings (i :: rest)))
                | _ => None
                end
            | None => None
            end)
         (resolved_order a)
  /\ ((forall k, AdditionalInfo.category a k = None
                 \/ AdditionalInfo.category a k = Some [])
      -> resolve r a = None).
Proof.
  intros Htame. rewrite resolve_common, rows_of_resolveLayout.
  rewrite (resolved_rows_tame _ _ Htame). split; [reflexivity|].
  intros Hempty. apply resolveLayout_None. rewrite (resolved_rows_tame _ _ Htame).
  induction (resolved_order a) as [|n ns IH]; [reflexivity|].
  cbn [omap list_omap]. rewrite IH by now inversion Htame.
  destruct (Key.of_name n) as [k|]; [|reflexivity].
  now destruct (Hempty k) as [-> | ->].
Qed.

Lemma rows_follow_order_witness :
  List.map key (rows_of (resolve (SingleColumn None) Samples.go_only))
  = [lit "technicalSkills"]
  /\ resolve (SingleColumn None) Samples.blank = None.
Proof.
  split.
  - assert (Ht : Forall (fun n => is_Some (Key.of_name n)
                                  \/ AdditionalInfo.get Samples.go_only n = VUndefined)
                        (resolved_order Samples.go_only)).
    { repeat (apply List.Forall_cons; [left; eexists; reflexivity|]).
      apply List.Forall_nil. }
    destruct (rows_follow_order (SingleColumn None) Samples.go_only Ht) as [-> _].
    reflexivity.
  - assert (Ht : Forall (fun n => is_Some (Key.of_name n)
                                  \/ AdditionalInfo.get Samples.blank n = VUndefined)
                        (resolved_order Samples.blank)).
    { repeat (apply List.Forall_cons; [left; eexists; reflexivity|]).
      apply List.Forall_nil. }
    destruct (rows_follow_order (SingleColumn None) Samples.blank Ht) as [_ H].
    apply H. intros k. left. now destruct k.
Defined.

(** C4 as stated fails on an unknown key that names a property: with no
    category holding any item and the order [["additionalSectionOrder"]],
    the entry reads the order list itself, which has length 1, and a row
    is produced; the block is rendered. *)
Lemma unknown_key_yields_row :
  (forall k, AdditionalInfo.category Samples.stray_entry k = None)
  /\ Key.of_name (lit "additionalSectionOrder") = None
  /\ rows_of (resolve (Highlight Samples.t_english) Samples.stray_entry)
     = [ mkRow (lit "additionalSectionOrder") VUndefined
               (VStrings [lit "additionalSectionOrder"]) ].
Proof. split; [now intros []|]. split; reflexivity. Qed.

(** C5. The rows come in the order of [additionalSectionOrder] when
    the field is present and otherwise in the fixed order
    [technicalSkills, languages, certificationsTraining, awards,
    creativeTools]: the keys of the rows are the entries of that list
    that have items, in the order of the list.  With the order
    [["awards", "technicalSkills"]] and both categories non-empty, the
    awards row is the left column and the skills row the right one. *)
Theorem display_order (r : Renderer) (a : AdditionalInfo.t) :
  List.map key (rows_of (resolve r a))
  = List.filter (fun n => length_positive (or_empty (AdditionalInfo.get a n)))
      (match AdditionalInfo.additionalSectionOrder a with
       | Some o => o
       | None => [lit "technicalSkills"; lit "languages";
                  lit "certificationsTraining"; lit "awards"; lit "creativeTools"]
       end)
  /\ (forall aw ts,
        AdditionalInfo.additionalSectionOrder a
          = Some [lit "awards"; lit "technicalSkills"] ->
        AdditionalInfo.awards a = Some aw -> aw <> [] ->
        AdditionalInfo.technicalSkills a = Some ts -> ts <> [] ->
        exists l, resolve r a = Some l
          /\ List.map key (leftRows l) = [lit "awards"]
          /\ List.map items (leftRows l) = [VStrings aw]
          /\ List.map key (rightRows l) = [lit "technicalSkills"]
          /\ List.map items (rightRows l) = [VStrings ts]).
Proof.
  split.
  - rewrite resolve_common, rows_of_resolveLayout. apply keys_resolved_rows.
  - intros aw ts Ho Ha Hane Ht Htne. rewrite resolve_common.
    unfold resolveLayout, resolved_rows, resolved_order. rewrite Ho.
    cbn [omap list_omap].
    change (lit "awards") with (Key.name Key.awards).
    change (lit "technicalSkills") with (Key.name Key.technicalSkills).
    rewrite !row_of_name. cbn [AdditionalInfo.category]. rewrite Ha, Ht.
    destruct aw as [|a1 aw]; [contradiction|].
    destruct ts as [|t1 ts]; [contradiction|].
    eexists. split; [reflexivity|]. repeat split.
Qed.

Lemma display_order_witness :
  exists l, resolve (ModernTwoColumn None) Samples.awards_first = Some l
    /\ List.map key (leftRows l) = [lit "awards"]
    /\ List.map items (leftRows l) = [VStrings [lit "Prize"]]
    /\ List.map key (rightRows l) = [lit "technicalSkills"]
    /\ List.map items (rightRows l) = [VStrings [lit "Go"; lit "Rust"]].
Proof.
  destruct (display_order (ModernTwoColumn None) Samples.awards_first) as [_ H].
  apply (H [lit "Prize"] [lit "Go"; lit "Rust"]);
    [reflexivity | reflexivity | discriminate | reflexivity | discriminate].
Defined.

Lemma in_resolved_rows d a row :
  In row (resolved_rows d a) ->
  exists n, In n (resolved_order a) /\ row_of d a n = Some row.
Proof.
  unfold resolved_rows. rewrite <- list_elem_of_In, list_elem_of_omap.
  intros (n & Hn & Hr). exists n. now rewrite <- list_elem_of_In.
Qed.

(** C6. The label of the row of a category key is the trimmed override
    [additionalSubsectionLabels[key]] when that is not empty, and the
    default label of the key when there is no override or the override
    trims to the empty string, as every override of white space only
    does; an override of three blanks for the awards falls back to the
    default awards label. *)
Theorem label_resolution (r : Renderer) (a : AdditionalInfo.t) (l : Layout)
    (row : Row) (k : Key.t) :
  resolve r a = Some l ->
  In row (rows l) ->
  key row = Key.name k ->
  let fallback := KeyRecord.at_key (default_labels r) k in
  (override_of a k = None -> label row = VString fallback)
  /\ (forall s, override_of a k = Some s -> JsString.trim s = [] ->
                label row = VString fallback)
  /\ (forall s, override_of a k = Some s -> JsString.trim s <> [] ->
                label row = VString (JsString.trim s))
  /\ (forall s, override_of a k = Some s ->
                List.forallb JsString.is_white_space s = true ->
                label row = VString fallback)
  /\ (k = Key.awards -> override_of a k = Some (lit "   ") ->
      label row = VString (KeyRecord.awards (default_labels r))).
Proof.
  rewrite resolve_common. intros H Hin Hkey fallback.
  apply resolveLayout_Some in H as (Hrows & _). rewrite Hrows in Hin.
  apply in_resolved_rows in Hin as (n & _ & Hrow).
  pose proof (key_row_of _ _ _ _ Hrow) as Hn. rewrite Hkey in Hn. subst n.
  rewrite row_of_name in Hrow.
  assert (Hlabel : label row = VString (label_or (override_of a k) fallback)).
  { destruct (AdditionalInfo.category a k) as [[|i rest]|]; try discriminate.
    now injection Hrow as <-. }
  rewrite Hlabel. unfold label_or, JsString.or_else. repeat split.
  - now intros ->.
  - intros s -> ->. reflexivity.
  - intros s -> Hne. destruct (JsString.trim s); [contradiction|reflexivity].
  - intros s -> Hs. now rewrite (JsStringFacts.trim_blank s Hs).
  - intros -> ->. reflexivity.
Qed.

Lemma label_resolution_witness :
  exists l row,
    resolve (ModernTwoColumn None) Samples.awards_first = Some l
    /\ In row (rows l)
    /\ key row = lit "awards"
    /\ label row = VString (lit "Awards").
Proof.
  eexists. eexists. split; [reflexivity|]. split; [left; reflexivity|].
  split; [reflexivity|].
  refine (proj2 (proj2 (proj2 (proj2
    (label_resolution (ModernTwoColumn None) Samples.awards_first _ _ Key.awards
       eq_refl (or_introl eq_refl) eq_refl)))) eq_refl eq_refl).
Defined.





(** Two of the listed checks, on sample data: an empty category gives
    no row, and no category at all gives no block. *)
Example empty_category_skipped :
  List.map key (rows_of (resolve (SingleColumn None) Samples.go_only))
  = [lit "technicalSkills"].
Proof. reflexivity. Qed.

Example nothing_to_render :
  forall r, resolve r Samples.blank = None.
Proof. intros r. rewrite resolve_common. reflexivity. Qed.

End AdditionalLayout.

(** ** The keyword segmenter *)

Module KeywordMatcherFacts.
Import KeywordMatcher.

Section Reconstruction.

Variable fold_case : N -> N.
Variable is_alphanumeric : N -> bool.

Lemma concatenation_app xs ys :
  concatenation (xs ++ ys) = concatenation xs ++ concatenation ys.
Proof. unfold concatenation. now rewrite List.map_app, concat_app. Qed.

Lemma concatenation_flush plain : concatenation (flush plain) = plain.
Proof. destruct plain; [reflexivity|]. cbn. now rewrite app_nil_r. Qed.

(** The scan spells out the pending text followed by the rest. *)
Lemma scan_concatenation keywords prev rest plain :
  concatenation (scan fold_case is_alphanumeric keywords prev rest plain)
  = plain ++ rest.
Proof.
  funelim (scan fold_case is_alphanumeric keywords prev rest plain).
  - rewrite concatenation_flush. now rewrite app_nil_r.
  - rewrite H. now rewrite <- app_assoc.
  - rewrite concatenation_app, concatenation_flush. f_equal.
    unfold concatenation in *. cbn [List.map concat text]. rewrite H.
    cbn. f_equal. apply take_drop.
Qed.

End Reconstruction.

(** C8. For every text and every keyword set, the [text] fields of the
    segments of [segment(text, keywords)], concatenated in order, are the
    text. *)
Theorem segments_reconstruct_text (fold_case : N -> N) (is_alphanumeric : N -> bool)
    (text : jsstring) (keywords : gset jsstring) :
  concatenation (segment fold_case is_alphanumeric text keywords) = text.
Proof.
  unfold segment. destruct (_ || _).
  - cbn. apply app_nil_r.
  - apply scan_concatenation.
Qed.

(** Without keywords, and on the empty text, there is one unmatched
    segment that holds the text. *)
Lemma segment_no_keywords (fold_case : N -> N) (is_alphanumeric : N -> bool)
    (text : jsstring) :
  segment fold_case is_alphanumeric text ∅ = [mkSegment text false].
Proof. reflexivity. Qed.

Lemma segment_empty_text (fold_case : N -> N) (is_alphanumeric : N -> bool)
    (keywords : gset jsstring) :
  segment fold_case is_alphanumeric [] keywords = [mkSegment [] false].
Proof. unfold segment. now rewrite orb_true_r. Qed.

Example case_insensitive :
  segmentTextByKeywords (lit "Python developer") {[ lit "python" ]}
  = [mkSegment (lit "Python") true; mkSegment (lit " developer") false].
Proof. vm_compute. reflexivity. Qed.

Example word_boundary :
  segmentTextByKeywords (lit "Java is not JavaScript") {[ lit "java" ]}
  = [mkSegment (lit "Java") true; mkSegment (lit " is not JavaScript") false].
Proof. vm_compute. reflexivity. Qed.

Example longest_match_wins :
  segmentTextByKeywords (lit "machine learning engineer")
    ({[ lit "machine" ]} ∪ {[ lit "machine learning" ]})
  = [mkSegment (lit "machine learning") true; mkSegment (lit " engineer") false].
Proof. vm_compute. reflexivity. Qed.

Example not_inside_a_word :
  segmentTextByKeywords (lit "party") {[ lit "art" ]}
  = [mkSegment (lit "party") false].
Proof. vm_compute. reflexivity. Qed.

End KeywordMatcherFacts.

(** ** The forms: edits against the store *)

Module StoreFacts.
Import Store.
Local Open Scope store_scope.

Lemma bind_alloc {B : Type} (o : object) (k : loc -> M B) (h : store) :
  bind (alloc o) k h = k (length h) (h ++ [o]).
Proof. reflexivity. Qed.

Lemma bind_ret {A B : Type} (x : A) (k : A -> M B) (h : store) : bind (ret x) k h = k x h.
Proof. reflexivity. Qed.

Lemma bind_assoc {A B C : Type} (m : M A) (f : A -> M B) (g : B -> M C) (h : store) :
  bind (bind m f) g h = bind m (fun x => bind (f x) g) h.
Proof. unfold bind. now destruct (m h) as [[x h']|]. Qed.

Lemma bind_load_obj {B : Type} (l : loc) (props : gmap jsstring value)
    (k : gmap jsstring value -> M B) (h : store) :
  h !! l = Some (Obj props) -> bind (load_obj l) k h = k props h.
Proof. unfold load_obj, load, bind, ret. now intros ->. Qed.

Lemma bind_load_arr {B : Type} (l : loc) (elems : list value)
    (k : list value -> M B) (h : store) :
  h !! l = Some (Arr elems) -> bind (load_arr l) k h = k elems h.
Proof. unfold load_arr, load, bind, ret. now intros ->. Qed.

Lemma bind_write {B : Type} (l : loc) (o : object) (k : unit -> M B) (h : store) :
  l < length h -> bind (write l o) k h = k tt (<[l := o]> h).
Proof.
  unfold write, bind. intros Hl.
  now destruct (Nat.ltb_spec l (length h)); [|lia].
Qed.

(** Writing to the cell that was allocated last. *)
Lemma insert_last (h : store) (o o' : object) : <[length h := o']> (h ++ [o]) = h ++ [o'].
Proof.
  replace (length h) with (length h + 0) by lia. now rewrite insert_app_r.
Qed.

Lemma lookup_last (h : store) (o : object) : (h ++ [o]) !! length h = Some o.
Proof. now rewrite list_lookup_middle. Qed.

Lemma bind_splice_last {B : Type} (h : store) (elems : list value) (start count : nat)
    (items : list value)
    (k : list value -> M B) :
  bind (splice (length h) start count items) k (h ++ [Arr elems])
  = k (take count (drop start elems))
      (h ++ [Arr (take start elems ++ items ++ drop (start + count) elems)]).
Proof.
  unfold splice. rewrite bind_assoc, (bind_load_arr _ elems) by apply lookup_last.
  rewrite bind_assoc, bind_write by (rewrite length_app; cbn; lia).
  rewrite bind_ret, insert_last. reflexivity.
Qed.

Lemma indexOf_Str (xs : list value) (s : jsstring) (i : nat) : indexOf xs (Str s) = Some i -> xs !! i = Some (Str s).
Proof.
  revert i. induction xs as [|x xs IH]; intros i; [discriminate|]. cbn.
  destruct (strict_equal x (Str s)) eqn:E.
  - intros [= <-]. destruct x; try discriminate. cbn in E.
    apply bool_decide_eq_true in E. now subst.
  - destruct (indexOf xs (Str s)); [|discriminate]. intros [= <-]. now apply IH.
Qed.

Lemma move_entry {A : Type} (xs : list A) i j x :
  xs !! i = Some x -> j < length xs ->
  let ys := take i xs ++ [] ++ drop (i + 1) xs in
  let zs := take j ys ++ [x] ++ drop (j + 0) ys in
  take 1 (drop i xs) = [x]
  /\ zs ≡ₚ xs /\ zs !! j = Some x /\ delete j zs = delete i xs.
Proof.
  intros Hi Hj ys zs.
  assert (Hys : ys = delete i xs).
  { unfold ys. rewrite delete_take_drop. cbn. f_equal. f_equal. lia. }
  assert (Hlen : j <= length ys).
  { rewrite Hys, length_delete by eauto. lia. }
  assert (Htake : length (take j ys) = j) by now apply length_take_le.
  assert (Hzs : zs = take j ys ++ x :: drop j ys).
  { unfold zs. cbn. now rewrite Nat.add_0_r. }
  split; [now rewrite (drop_S _ _ _ Hi)|].
  rewrite Hzs. split; [|split].
  - rewrite <- Permutation_middle, take_drop, Hys.
    symmetry. now apply delete_Permutation.
  - rewrite lookup_app_r by lia. now rewrite Htake, Nat.sub_diag.
  - pose proof (delete_middle (take j ys) (drop j ys) x) as Hd.
    rewrite Htake in Hd. now rewrite Hd, take_drop.
Qed.


(** What an edit leaves behind: the old cells as they were, and the
    object passed to [onChange] in a cell that did not exist before. *)
Lemma grown_store (h k : store) (d d' : gmap jsstring value) (field : jsstring)
    (n : nat) :
  k !! n = Some (Obj d') ->
  (forall f, f <> field -> d' !! f = d !! f) ->
  (forall l o, h !! l = Some o -> (h ++ k) !! l = Some o)
  /\ exists l' d'',
       Ref (length h + n) = Ref l'
       /\ h !! l' = None
       /\ (h ++ k) !! l' = Some (Obj d'')
       /\ (forall f, f <> field -> d'' !! f = d !! f).
Proof.
  intros Hk Hd. split; [intros l o; apply lookup_app_l_Some|].
  exists (length h + n), d'. split; [reflexivity|]. split; [|split].
  - apply lookup_ge_None. lia.
  - rewrite lookup_app_r by lia. now replace (length h + n - length h) with n by lia.
  - exact Hd.
Qed.

End StoreFacts.

Module FormFacts.
Import Store StoreFacts.
Local Open Scope store_scope.

Ltac step :=
  first
    [ rewrite bind_assoc
    | rewrite bind_alloc
    | rewrite bind_ret
    | erewrite bind_load_obj by (repeat apply lookup_app_l_Some; eassumption)
    | erewrite bind_load_arr by (repeat apply lookup_app_l_Some; eassumption) ].

Lemma handleArrayChange_run (data : loc) (field value : jsstring) (h : store)
    (d : gmap jsstring Store.value) :
  h !! data = Some (Obj d) ->
  exists a1 a2,
    AdditionalForm.handleArrayChange data field value h
    = Some (Some (Ref (length h + 2)),
            h ++ [a1; a2; Obj (<[field := Ref (length h + 1)]> d)]).
Proof.
  intros Hd. unfold AdditionalForm.handleArrayChange. cbv zeta.
  repeat step. unfold ret. eexists _, _. rewrite !length_app. cbn [length].
  rewrite <- !app_assoc. cbn [app].
  replace (length h + 1 + 1) with (length h + 2) by lia. reflexivity.
Qed.

Lemma spread_run (h : store) (d : gmap jsstring Store.value) :
  labels_well_typed h d ->
  exists own, forall (B : Type) (k : gmap jsstring Store.value -> M B),
    bind (spread (get d (lit "additionalSubsectionLabels"))) k h = k own h.
Proof.
  unfold labels_well_typed.
  destruct (get d (lit "additionalSubsectionLabels")) as [| |s|x|l]; cbn [spread].
  - intros _. exists ∅. reflexivity.
  - intros _. exists ∅. reflexivity.
  - intros [].
  - intros _. exists ∅. reflexivity.
  - intros [own Hown]. exists own. intros B k. now apply bind_load_obj.
Qed.

Lemma bind_delete_prop_last {B : Type} (h : store) (own : gmap jsstring Store.value)
    (key : jsstring) (k : unit -> M B) :
  bind (delete_prop (length h) key) k (h ++ [Obj own])
  = k tt (h ++ [Obj (delete key own)]).
Proof.
  unfold delete_prop. rewrite bind_assoc, (bind_load_obj _ own) by apply lookup_last.
  rewrite bind_write by (rewrite length_app; cbn; lia). now rewrite insert_last.
Qed.

Lemma bind_set_prop_last {B : Type} (h : store) (own own' : gmap jsstring Store.value)
    (key : jsstring) (v : Store.value) (k : unit -> M B) :
  assign own key v = Some own' ->
  bind (set_prop (length h) key v) k (h ++ [Obj own])
  = k tt (h ++ [Obj own']).
Proof.
  intros Ha. unfold set_prop.
  rewrite bind_assoc, (bind_load_obj _ own) by apply lookup_last.
  rewrite Ha, bind_write by (rewrite length_app; cbn; lia). now rewrite insert_last.
Qed.

(** Assigning a string never touches the prototype. *)
Lemma assign_Str (own : gmap jsstring Store.value) (key s : jsstring) :
  assign own key (Str s)
  = Some (match own !! key with
          | Some _ => <[key := Str s]> own
          | None => if bool_decide (key = lit "__proto__") then own
                    else <[key := Str s]> own
          end).
Proof.
  unfold assign. destruct (own !! key); [reflexivity|].
  now destruct (bool_decide (key = lit "__proto__")).
Qed.

Lemma handleSubsectionLabelChange_run (data : loc) (key value : jsstring)
    (h : store) (d : gmap jsstring Store.value) :
  h !! data = Some (Obj d) ->
  labels_well_typed h d ->
  exists next v,
    AdditionalForm.handleSubsectionLabelChange data key value h
    = Some (Some (Ref (length h + 1)),
            h ++ [next; Obj (<[lit "additionalSubsectionLabels" := v]> d)]).
Proof.
  intros Hd Hwt. unfold AdditionalForm.handleSubsectionLabelChange.
  destruct (spread_run h d Hwt) as [own Hown].
  erewrite bind_load_obj by eassumption. rewrite Hown, bind_alloc.
  destruct (bool_decide (JsString.trim value = [])).
  - rewrite bind_delete_prop_last.
    erewrite bind_load_obj by apply lookup_last.
    erewrite bind_load_obj by (apply lookup_app_l_Some; eassumption).
    rewrite bind_alloc. unfold ret. eexists _, _.
    rewrite length_app. cbn [length]. rewrite <- app_assoc. reflexivity.
  - erewrite bind_set_prop_last by apply assign_Str.
    erewrite bind_load_obj by apply lookup_last.
    erewrite bind_load_obj by (apply lookup_app_l_Some; eassumption).
    rewrite bind_alloc. unfold ret. eexists _, _.
    rewrite length_app. cbn [length]. rewrite <- app_assoc. reflexivity.
Qed.

(** A drag that ends on another entry of the order. *)
Lemma handleDragEnd_move (keys data : loc) (h : store)
    (d : gmap jsstring Store.value) (l : loc) (elems : list Store.value)
    (a o : jsstring) (i j : nat) :
  h !! data = Some (Obj d) ->
  nullish (get d (lit "additionalSectionOrder")) (Ref keys) = Ref l ->
  h !! l = Some (Arr elems) ->
  a <> o ->
  indexOf elems (Str a) = Some i ->
  indexOf elems (Str o) = Some j ->
  AdditionalForm.handleDragEnd keys data (mkDragEndEvent a (Some o)) h
  = Some (Some (Ref (length h + 1)),
          h ++ [Arr (take j (take i elems ++ [] ++ drop (i + 1) elems)
                     ++ [first_of (take 1 (drop i elems))]
                     ++ drop (j + 0) (take i elems ++ [] ++ drop (i + 1) elems));
                Obj (<[lit "additionalSectionOrder" := Ref (length h)]> d)]).
Proof.
  intros Hd Hord Hl Hne Hi Hj. unfold AdditionalForm.handleDragEnd.
  cbn [over active]. rewrite bool_decide_eq_false_2 by exact Hne.
  unfold AdditionalForm.order. rewrite bind_assoc.
  erewrite bind_load_obj by eassumption. rewrite bind_ret, Hord.
  erewrite bind_load_arr by eassumption. rewrite Hi, Hj.
  rewrite bind_alloc, bind_splice_last, bind_splice_last.
  erewrite bind_load_obj by (apply lookup_app_l_Some; eassumption).
  rewrite bind_alloc. unfold ret.
  rewrite length_app. cbn [length]. rewrite <- app_assoc. reflexivity.
Qed.

(** A drag that ends nowhere, on its own entry, or on an entry the
    order does not have. *)
Lemma handleDragEnd_cancel (keys data : loc) (h : store)
    (d : gmap jsstring Store.value) (l : loc) (elems : list Store.value)
    (ev : DragEndEvent) :
  h !! data = Some (Obj d) ->
  nullish (get d (lit "additionalSectionOrder")) (Ref keys) = Ref l ->
  h !! l = Some (Arr elems) ->
  over ev = None
  \/ over ev = Some (active ev)
  \/ indexOf elems (Str (active ev)) = None
  \/ (exists o, over ev = Some o /\ indexOf elems (Str o) = None) ->
  AdditionalForm.handleDragEnd keys data ev h = Some (None, h).
Proof.
  intros Hd Hord Hl Hcase. unfold AdditionalForm.handleDragEnd.
  destruct (over ev) as [o|] eqn:Ho; [|reflexivity].
  destruct (bool_decide (active ev = o)) eqn:Hsame; [reflexivity|].
  apply bool_decide_eq_false in Hsame.
  unfold AdditionalForm.order. rewrite bind_assoc.
  erewrite bind_load_obj by eassumption. rewrite bind_ret, Hord.
  erewrite bind_load_arr by eassumption.
  destruct Hcase as [H|[H|[H|(o' & H & Ho')]]].
  - discriminate.
  - injection H as ->. contradiction.
  - rewrite H. reflexivity.
  - injection H as ->. rewrite Ho'.
    now destruct (indexOf elems (Str (active ev))).
Qed.

Lemma handleDragEnd_run (keys data : loc) (h : store)
    (d : gmap jsstring Store.value) (ev : DragEndEvent) :
  h !! data = Some (Obj d) ->
  order_well_typed keys h d ->
  AdditionalForm.handleDragEnd keys data ev h = Some (None, h)
  \/ exists newOrder,
       AdditionalForm.handleDragEnd keys data ev h
       = Some (Some (Ref (length h + 1)),
               h ++ [newOrder;
                     Obj (<[lit "additionalSectionOrder" := Ref (length h)]> d)]).
Proof.
  intros Hd (l & elems & Hord & Hl).
  destruct ev as [a [o|]].
  - destruct (decide (a = o)) as [->|Hne].
    { left. eapply handleDragEnd_cancel; eauto. }
    destruct (indexOf elems (Str a)) as [i|] eqn:Hi.
    + destruct (indexOf elems (Str o)) as [j|] eqn:Hj.
      * right. eexists. eapply handleDragEnd_move; eauto.
      * left. eapply handleDragEnd_cancel; eauto. right. right. right. eauto.
    + left. eapply handleDragEnd_cancel; eauto.
  - left. eapply handleDragEnd_cancel; eauto.
Qed.

Lemma handleColumnRatioChange_run (data : loc) (raw : JsNumber.number) (h : store)
    (d : gmap jsstring Store.value) :
  h !! data = Some (Obj d) ->
  exists v,
    AdditionalForm.handleColumnRatioChange data raw h
    = Some (Some (Ref (length h + 0)),
            h ++ [Obj (<[lit "skillsLeftColumnRatio" := v]> d)]).
Proof.
  intros Hd. unfold AdditionalForm.handleColumnRatioChange. cbv zeta.
  erewrite bind_load_obj by eassumption. rewrite bind_alloc, Nat.add_0_r.
  eexists. reflexivity.
Qed.

Lemma handleColumnGapChange_run (data : loc) (raw : JsNumber.number) (h : store)
    (d : gmap jsstring Store.value) :
  h !! data = Some (Obj d) ->
  AdditionalForm.handleColumnGapChange data raw h
  = Some (Some (Ref (length h + 0)),
          h ++ [Obj (<[lit "skillsColumnGapRem" := Num raw]> d)]).
Proof.
  intros Hd. unfold AdditionalForm.handleColumnGapChange.
  erewrite bind_load_obj by eassumption. now rewrite bind_alloc, Nat.add_0_r.
Qed.

Lemma handleChange_run (data : loc) (field value : jsstring) (h : store)
    (d : gmap jsstring Store.value) :
  h !! data = Some (Obj d) ->
  PersonalInfoForm.handleChange data field value h
  = Some (Some (Ref (length h + 0)), h ++ [Obj (<[field := Str value]> d)]).
Proof.
  intros Hd. unfold PersonalInfoForm.handleChange.
  erewrite bind_load_obj by eassumption. now rewrite bind_alloc, Nat.add_0_r.
Qed.

(** C9. Every edit handler of the two forms hands [onChange] a new
    object and writes to no object that existed before: after the edit
    every cell of the old store holds what it held, the object passed to
    [onChange] sits in a cell that did not exist, and each of its fields
    other than the edited one equals that field of the input object.
    The one handler that may return without a call is a drag that changes
    nothing, and it leaves the store as it was. *)
Theorem edits_replace_whole_object (keys data : loc) (e : Edit) (h : store)
    (d : gmap jsstring Store.value) :
  h !! data = Some (Obj d) ->
  applicable keys h d e ->
  exists res h',
    run keys data e h = Some (res, h')
    /\ (forall l o, h !! l = Some o -> h' !! l = Some o)
    /\ match res with
       | Some new =>
           exists l' d',
             new = Ref l'
             /\ h !! l' = None
             /\ h' !! l' = Some (Obj d')
             /\ (forall f, f <> edited_field e -> d' !! f = d !! f)
       | None => h' = h /\ exists ev, e = DragEnd ev
       end.
Proof.
  intros Hd Happ.
  destruct e as [field value|key value|ev|raw|raw|field value];
    cbn [run edited_field applicable] in *.
  - destruct (handleArrayChange_run data field value h d Hd) as (a1 & a2 & ->).
    eexists _, _. split; [reflexivity|].
    eapply (grown_store h _ d _ field 2); [reflexivity|].
    intros f Hf. now rewrite lookup_insert_ne.
  - destruct (handleSubsectionLabelChange_run data key value h d Hd Happ)
      as (next & v & ->).
    eexists _, _. split; [reflexivity|].
    eapply (grown_store h _ d _ (lit "additionalSubsectionLabels") 1); [reflexivity|].
    intros f Hf. now rewrite lookup_insert_ne.
  - destruct (handleDragEnd_run keys data h d ev Hd Happ) as [->|(newOrder & ->)].
    + eexists _, _. split; [reflexivity|]. split; [auto|]. split; eauto.
    + eexists _, _. split; [reflexivity|].
      eapply (grown_store h _ d _ (lit "additionalSectionOrder") 1); [reflexivity|].
      intros f Hf. now rewrite lookup_insert_ne.
  - destruct (handleColumnRatioChange_run data raw h d Hd) as (v & ->).
    eexists _, _. split; [reflexivity|].
    eapply (grown_store h _ d _ (lit "skillsLeftColumnRatio") 0); [reflexivity|].
    intros f Hf. now rewrite lookup_insert_ne.
  - rewrite (handleColumnGapChange_run data raw h d Hd).
    eexists _, _. split; [reflexivity|].
    eapply (grown_store h _ d _ (lit "skillsColumnGapRem") 0); [reflexivity|].
    intros f Hf. now rewrite lookup_insert_ne.
  - rewrite (handleChange_run data field value h d Hd).
    eexists _, _. split; [reflexivity|].
    eapply (grown_store h _ d _ field 0); [reflexivity|].
    intros f Hf. now rewrite lookup_insert_ne.
Qed.

Lemma edits_replace_whole_object_witness :
  exists res h',
    run 0 2 (ArrayChange (lit "awards") (lit "Prize")) Samples.form_store
    = Some (res, h')
    /\ (forall l o, Samples.form_store !! l = Some o -> h' !! l = Some o)
    /\ match res with
       | Some new =>
           exists l' d',
             new = Ref l'
             /\ Samples.form_store !! l' = None
             /\ h' !! l' = Some (Obj d')
             /\ (forall f, f <> lit "awards" -> d' !! f = Samples.form_data !! f)
       | None =>
           h' = Samples.form_store
           /\ exists ev, ArrayChange (lit "awards") (lit "Prize") = DragEnd ev
       end.
Proof.
  apply (edits_replace_whole_object 0 2 (ArrayChange (lit "awards") (lit "Prize"))
           Samples.form_store Samples.form_data).
  - reflexivity.
  - exact I.
Defined.

(** C7. With [i] the index of the dragged key and [j] the index of the
    drop target in the order, [i <> j], the handler passes on a new order
    that is a permutation of the old one, has at position [j] the element
    that was at position [i], and keeps the other elements in their
    relative order (taking position [j] out of the new list and position
    [i] out of the old one leaves the same list).  When the drag ends on
    no target or on its own key, or a key is not in the order, the
    handler makes no call and nothing changes. *)
Theorem drag_end_moves_entry (keys data : loc) (h : store)
    (d : gmap jsstring Store.value) (l : loc) (elems : list Store.value) :
  h !! data = Some (Obj d) ->
  nullish (get d (lit "additionalSectionOrder")) (Ref keys) = Ref l ->
  h !! l = Some (Arr elems) ->
  (forall (a o : jsstring) (i j : nat),
      indexOf elems (Str a) = Some i ->
      indexOf elems (Str o) = Some j ->
      i <> j ->
      exists h' l' d' ln new,
        AdditionalForm.handleDragEnd keys data (mkDragEndEvent a (Some o)) h
        = Some (Some (Ref l'), h')
        /\ h' !! l' = Some (Obj d')
        /\ d' !! lit "additionalSectionOrder" = Some (Ref ln)
        /\ h' !! ln = Some (Arr new)
        /\ new ≡ₚ elems
        /\ elems !! i = Some (Str a)
        /\ new !! j = Some (Str a)
        /\ delete j new = delete i elems
        /\ h' !! l = Some (Arr elems))
  /\ (forall ev : DragEndEvent,
        over ev = None
        \/ over ev = Some (active ev)
        \/ indexOf elems (Str (active ev)) = None
        \/ (exists o, over ev = Some o /\ indexOf elems (Str o) = None) ->
        AdditionalForm.handleDragEnd keys data ev h = Some (None, h)).
Proof.
  intros Hd Hord Hl. split.
  - intros a o i j Hi Hj Hij.
    assert (Hne : a <> o) by (intros ->; congruence).
    pose proof (indexOf_Str _ _ _ Hi) as Hai.
    pose proof (indexOf_Str _ _ _ Hj) as Hoj.
    apply lookup_lt_Some in Hoj.
    destruct (move_entry elems i j (Str a) Hai Hoj) as (Hrem & Hperm & Hat & Hdel).
    rewrite (handleDragEnd_move keys data h d l elems a o i j Hd Hord Hl Hne Hi Hj).
    rewrite Hrem. cbn [first_of].
    eexists _, _, _, _, _. split; [reflexivity|].
    split; [|split; [|split; [|split; [|split; [|split; [|split]]]]]].
    + rewrite lookup_app_r by lia.
      replace (length h + 1 - length h) with 1 by lia. reflexivity.
    + apply lookup_insert_eq.
    + rewrite lookup_app_r by lia. rewrite Nat.sub_diag. reflexivity.
    + exact Hperm.
    + exact Hai.
    + exact Hat.
    + exact Hdel.
    + now apply lookup_app_l_Some.
  - intros ev Hcase. eapply handleDragEnd_cancel; eauto.
Qed.

Lemma drag_end_moves_entry_witness :
  exists h' l' d' ln new,
    AdditionalForm.handleDragEnd 0 2
      (mkDragEndEvent (lit "awards") (Some (lit "technicalSkills")))
      Samples.form_store
    = Some (Some (Ref l'), h')
    /\ h' !! l' = Some (Obj d')
    /\ d' !! lit "additionalSectionOrder" = Some (Ref ln)
    /\ h' !! ln = Some (Arr new)
    /\ new ≡ₚ Str <$> DEFAULT_ADDITIONAL_SECTION_ORDER
    /\ (Str <$> DEFAULT_ADDITIONAL_SECTION_ORDER) !! 3 = Some (Str (lit "awards"))
    /\ new !! 0 = Some (Str (lit "awards"))
    /\ delete 0 new = delete 3 (Str <$> DEFAULT_ADDITIONAL_SECTION_ORDER)
    /\ h' !! 0 = Some (Arr (Str <$> DEFAULT_ADDITIONAL_SECTION_ORDER)).
Proof.
  refine (proj1 (drag_end_moves_entry 0 2 Samples.form_store Samples.form_data 0
                   (Str <$> DEFAULT_ADDITIONAL_SECTION_ORDER)
                   eq_refl eq_refl eq_refl)
            (lit "awards") (lit "technicalSkills") 3 0 eq_refl eq_refl _).
  discriminate.
Defined.

End FormFacts.

(* ================================================================== *)
(** * Part II, continued. Properties of the rest of the code            *)
(* ================================================================== *)

(** ** Contact details and link pills *)

Module ContactFacts.
Import JsText Contact.

Lemma startsWith_app (s p q : jsstring) :
  startsWith s (p ++ q) = true -> startsWith s p = true.
Proof.
  revert s. induction p as [|c p IH]; intros s; [now destruct s|].
  destruct s as [|x s]; [discriminate|]. cbn.
  intros H. apply andb_true_iff in H as [-> H]. now apply IH.
Qed.

Lemma startsWith_prefix (p s : jsstring) : startsWith (p ++ s) p = true.
Proof.
  induction p as [|c p IH]; [now destruct s|]. cbn. now rewrite N.eqb_refl.
Qed.

Lemma drop_scheme_no_http (s : jsstring) :
  startsWith s (lit "http") = false -> drop_scheme s = s.
Proof.
  intros H. unfold drop_scheme.
  destruct (startsWith s (lit "https://")) eqn:E1.
  { apply (startsWith_app s (lit "http") (lit "s://")) in E1. congruence. }
  destruct (startsWith s (lit "http://")) eqn:E2.
  { apply (startsWith_app s (lit "http") (lit "://")) in E2. congruence. }
  reflexivity.
Qed.

Lemma drop_scheme_suffix (s : jsstring) : drop_scheme s `suffix_of` s.
Proof.
  unfold drop_scheme.
  destruct (startsWith s _); [apply suffix_drop|].
  destruct (startsWith s _); [apply suffix_drop|reflexivity].
Qed.

Lemma drop_www_suffix (s : jsstring) : drop_www s `suffix_of` s.
Proof. unfold drop_www. destruct (startsWith s _); [apply suffix_drop|reflexivity]. Qed.

(** X1. A website, LinkedIn or GitHub value that is not empty becomes a
    link only when it does not begin with [http] or [//]: then the link
    goes to [https://] followed by the value and shows the value without
    a leading [www.]; a value that begins with [http] or [//] is shown as
    plain text, unchanged. *)
Theorem web_detail_link_or_text (label value : jsstring) :
  In label [lit "Website"; lit "LinkedIn"; lit "GitHub"] ->
  value <> [] ->
  renderContactDetail label (Some value) None
  = if startsWith value (lit "http") || startsWith value (lit "//")
    then Some (Span value)
    else Some (Anchor (lit "https://" ++ value) (drop_www value)).
Proof.
  intros Hlabel Hvalue. unfold renderContactDetail.
  destruct value as [|c value]; [contradiction|]. cbn [JsString.truthy negb].
  assert (Hinc : includes [lit "Website"; lit "LinkedIn"; lit "GitHub"] label = true).
  { unfold includes. apply existsb_exists. exists label. split; [exact Hlabel|].
    now apply bool_decide_eq_true. }
  assert (Hany : bool_decide (label = lit "LinkedIn")
                 || bool_decide (label = lit "GitHub")
                 || bool_decide (label = lit "Website") = true).
  { destruct Hlabel as [<-|[<-|[<-|[]]]]; reflexivity. }
  rewrite Hinc, Hany. cbv zeta.
  destruct (startsWith (c :: value) (lit "http")) eqn:Eh.
  { reflexivity. }
  destruct (startsWith (c :: value) (lit "//")) eqn:Es.
  { reflexivity. }
  cbn [negb andb orb].
  change (startsWith (lit "https://") (lit "http")) with true. cbn [orb andb].
  now rewrite (drop_scheme_no_http _ Eh).
Qed.

Lemma web_detail_link_or_text_witness :
  renderContactDetail (lit "LinkedIn") (Some (lit "www.linkedin.com/in/ada")) None
  = Some (Anchor (lit "https://www.linkedin.com/in/ada") (lit "linkedin.com/in/ada"))
  /\ renderContactDetail (lit "Website") (Some (lit "https://ada.dev")) None
     = Some (Span (lit "https://ada.dev")).
Proof.
  split.
  - rewrite (web_detail_link_or_text (lit "LinkedIn") (lit "www.linkedin.com/in/ada"));
      [reflexivity | right; left; reflexivity | discriminate].
  - rewrite (web_detail_link_or_text (lit "Website") (lit "https://ada.dev"));
      [reflexivity | left; reflexivity | discriminate].
Defined.

(** The text a detail shows and, for an anchor, where it points. *)
Lemma detail_cases (label value : jsstring) (hrefPrefix : option jsstring) :
  value <> [] ->
  exists d, renderContactDetail label (Some value) hrefPrefix = Some d
    /\ match d with
       | Anchor href text =>
           text `suffix_of` value /\ value `suffix_of` href
       | Span text => text `suffix_of` value
       end.
Proof.
  intros Hvalue. unfold renderContactDetail.
  destruct value as [|c value]; [contradiction|]. cbn [JsString.truthy negb]. cbv zeta.
  eexists. split; [reflexivity|].
  assert (Hd : drop_www (drop_scheme (c :: value)) `suffix_of` (c :: value)).
  { etrans; [apply drop_www_suffix|apply drop_scheme_suffix]. }
  destruct (_ || _ || _); [split|].
  - destruct (_ && _); [exact Hd|reflexivity].
  - apply suffix_app_r. reflexivity.
  - destruct (_ && _); [exact Hd|reflexivity].
Qed.

Lemma contact_detail_text_aux (label : jsstring) (value hrefPrefix : option jsstring) :
  renderContactDetail label value hrefPrefix = None <-> present value = false.
Proof.
  destruct value as [[|c v]|]; [split; reflexivity| |split; reflexivity].
  destruct (detail_cases label (c :: v) hrefPrefix ltac:(discriminate)) as (d & -> & _).
  split; discriminate.
Qed.

(** X2. [renderContactDetail] yields nothing exactly for a missing or
    empty value.  Otherwise the text it shows is an end piece of the
    value, so nothing is ever added to what the user entered, and the
    target of a link ends with the value. *)
Theorem contact_detail_text (label : jsstring) (value hrefPrefix : option jsstring) :
  (renderContactDetail label value hrefPrefix = None <-> present value = false)
  /\ (forall d, renderContactDetail label value hrefPrefix = Some d ->
        exists v, value = Some v
          /\ match d with
             | Anchor href text => text `suffix_of` v /\ v `suffix_of` href
             | Span text => text `suffix_of` v
             end).
Proof.
  destruct value as [[|c v]|].
  - split; [split; reflexivity|discriminate].
  - destruct (detail_cases label (c :: v) hrefPrefix ltac:(discriminate))
      as (d & Hd & Hshape).
    split.
    + rewrite Hd. split; discriminate.
    + intros d' Hd'. rewrite Hd in Hd'. injection Hd' as <-. eauto.
  - split; [split; reflexivity|discriminate].
Qed.

Lemma contact_detail_text_witness :
  exists v, Some (lit "ada@example.org") = Some v
    /\ lit "ada@example.org" `suffix_of` v
    /\ v `suffix_of` lit "mailto:ada@example.org".
Proof.
  apply (proj2 (contact_detail_text (lit "Email") (Some (lit "ada@example.org"))
                  (Some (lit "mailto:")))
           (Anchor (lit "mailto:ada@example.org") (lit "ada@example.org"))).
  reflexivity.
Defined.

Lemma present_rendered (label : jsstring) (value hrefPrefix : option jsstring) :
  present value = true ->
  exists d, renderContactDetail label value hrefPrefix = Some d.
Proof.
  destruct value as [[|c v]|]; try discriminate. intros _.
  destruct (detail_cases label (c :: v) hrefPrefix ltac:(discriminate)) as (d & Hd & _).
  eauto.
Qed.

Lemma after_comma_shape (field : option jsstring) (label : jsstring)
    (hrefPrefix : option jsstring) :
  (present field = false /\ after_comma field label hrefPrefix = [])
  \/ (present field = true
      /\ exists d, after_comma field label hrefPrefix = [Comma; Detail d]).
Proof.
  unfold after_comma. destruct (present field) eqn:E; [right|left; auto].
  destruct (present_rendered label field hrefPrefix E) as [d ->]. eauto.
Qed.

Lemma rendered_shape (label : jsstring) (value hrefPrefix : option jsstring) :
  (present value = false /\ rendered (renderContactDetail label value hrefPrefix) = [])
  \/ (present value = true
      /\ exists d, rendered (renderContactDetail label value hrefPrefix) = [Detail d]).
Proof.
  destruct (present value) eqn:E.
  - right. destruct (present_rendered label value hrefPrefix E) as [d ->]. eauto.
  - left. split; [reflexivity|].
    destruct (contact_detail_text_aux label value hrefPrefix) as [_ H].
    now rewrite (H E).
Qed.

Lemma commas_followed_nil :
  forall i, @nil ContactToken !! i = Some Comma ->
            exists d, @nil ContactToken !! S i = Some (Detail d).
Proof. intros i. now rewrite lookup_nil. Qed.

Lemma commas_followed_pair (d : ContactDetail) (line : list ContactToken) :
  (forall i, line !! i = Some Comma -> exists d', line !! S i = Some (Detail d')) ->
  forall i, (Comma :: Detail d :: line) !! i = Some Comma ->
            exists d', (Comma :: Detail d :: line) !! S i = Some (Detail d').
Proof.
  intros H [|[|i]]; cbn.
  - eauto.
  - discriminate.
  - apply H.
Qed.

Lemma commas_followed_detail (d : ContactDetail) (line : list ContactToken) :
  (forall i, line !! i = Some Comma -> exists d', line !! S i = Some (Detail d')) ->
  forall i, (Detail d :: line) !! i = Some Comma ->
            exists d', (Detail d :: line) !! S i = Some (Detail d').
Proof. intros H [|i]; cbn; [discriminate|apply H]. Qed.

(** X3. In the contact line of the single-column headers every comma is
    followed by a detail, and the line begins with a comma exactly when
    there is no e-mail address but some other detail: the e-mail is the
    one detail that is not guarded together with its comma. *)
Theorem contact_line_commas (p : PersonalInfo.t) :
  (forall i, contact_line p !! i = Some Comma ->
             exists d, contact_line p !! S i = Some (Detail d))
  /\ (head (contact_line p) = Some Comma
      <-> present (PersonalInfo.email p) = false
          /\ present (PersonalInfo.phone p) || present (PersonalInfo.location p)
             || present (PersonalInfo.website p) || present (PersonalInfo.linkedin p)
             || present (PersonalInfo.github p) = true).
Proof.
  unfold contact_line.
  destruct (rendered_shape (lit "Email") (PersonalInfo.email p) (Some (lit "mailto:")))
    as [[He ->]|[He [de ->]]];
  destruct (after_comma_shape (PersonalInfo.phone p) (lit "Phone") (Some (lit "tel:")))
    as [[H1 ->]|[H1 [d1 ->]]];
  destruct (after_comma_shape (PersonalInfo.location p) (lit "Location") None)
    as [[H2 ->]|[H2 [d2 ->]]];
  destruct (after_comma_shape (PersonalInfo.website p) (lit "Website") None)
    as [[H3 ->]|[H3 [d3 ->]]];
  destruct (after_comma_shape (PersonalInfo.linkedin p) (lit "LinkedIn") None)
    as [[H4 ->]|[H4 [d4 ->]]];
  destruct (after_comma_shape (PersonalInfo.github p) (lit "GitHub") None)
    as [[H5 ->]|[H5 [d5 ->]]];
  rewrite He, H1, H2, H3, H4, H5; cbn [app head orb];
  (split;
   [ repeat first [ apply commas_followed_pair | apply commas_followed_detail ];
     apply commas_followed_nil
   | intuition congruence ]).
Qed.

Lemma contact_line_commas_witness :
  head (contact_line MoreSamples.phone_only) = Some Comma.
Proof.
  apply (proj2 (contact_line_commas MoreSamples.phone_only)).
  split; reflexivity.
Defined.

(** X4. The links section of the two-column sidebar is left out exactly
    when there is neither website nor LinkedIn nor GitHub; when it is
    rendered it is not empty, and each of its entries is one of the
    details of the header, so every link of the sidebar is on the page a
    second time. *)
Theorem sidebar_links_repeat_header (p : PersonalInfo.t) :
  (links_section (Some p) = None
   <-> present (PersonalInfo.website p) || present (PersonalInfo.linkedin p)
       || present (PersonalInfo.github p) = false)
  /\ (forall links, links_section (Some p) = Some links ->
        links <> []
        /\ forall d, In d links -> In d (two_column_header p)).
Proof.
  unfold links_section, two_column_header.
  pose proof (contact_detail_text_aux (lit "Website") (PersonalInfo.website p) None)
    as [Hw1 Hw2].
  pose proof (contact_detail_text_aux (lit "LinkedIn") (PersonalInfo.linkedin p) None)
    as [Hl1 Hl2].
  pose proof (contact_detail_text_aux (lit "GitHub") (PersonalInfo.github p) None)
    as [Hg1 Hg2].
  destruct (renderContactDetail (lit "Email") (PersonalInfo.email p) _) as [e|];
  destruct (renderContactDetail (lit "Phone") (PersonalInfo.phone p) _) as [ph|];
  destruct (renderContactDetail (lit "Location") (PersonalInfo.location p) _) as [lo|];
  destruct (renderContactDetail (lit "Website") (PersonalInfo.website p) None) as [w|];
  destruct (renderContactDetail (lit "LinkedIn") (PersonalInfo.linkedin p) None) as [li|];
  destruct (renderContactDetail (lit "GitHub") (PersonalInfo.github p) None) as [g|];
  destruct (present (PersonalInfo.website p));
  try (specialize (Hw1 eq_refl); discriminate);
  try (specialize (Hw2 eq_refl); discriminate);
  destruct (present (PersonalInfo.linkedin p));
  try (specialize (Hl1 eq_refl); discriminate);
  try (specialize (Hl2 eq_refl); discriminate);
  destruct (present (PersonalInfo.github p));
  try (specialize (Hg1 eq_refl); discriminate);
  try (specialize (Hg2 eq_refl); discriminate);
  cbn [orb omap list_omap id app];
  (split; [split; congruence|]);
  intros links Hlinks; try discriminate Hlinks;
  injection Hlinks as <-; (split; [discriminate|]);
  intros d Hd; cbn [In] in Hd |- *; intuition auto.
Qed.

Lemma sidebar_links_repeat_header_witness :
  [Anchor (lit "https://www.linkedin.com/in/ada") (lit "linkedin.com/in/ada")] <> []
  /\ forall d,
       In d [Anchor (lit "https://www.linkedin.com/in/ada") (lit "linkedin.com/in/ada")] ->
       In d (two_column_header MoreSamples.linked).
Proof.
  apply (proj2 (sidebar_links_repeat_header MoreSamples.linked)
           [Anchor (lit "https://www.linkedin.com/in/ada") (lit "linkedin.com/in/ada")]).
  reflexivity.
Defined.

(** X5. The link of a project pill always begins with [http], and the
    text of the pill is the same whether or not the value was entered
    with its scheme: the text of the completed address is the text of
    the value. *)
Theorem pill_text_ignores_scheme (value : jsstring) :
  startsWith (pill_href value) (lit "http") = true
  /\ pill_text (pill_href value) = pill_text value.
Proof.
  unfold pill_href. destruct (startsWith value (lit "http")) eqn:E.
  - split; [exact E|reflexivity].
  - split; [apply (startsWith_prefix (lit "http") (lit "s://" ++ value))|].
    unfold pill_text. rewrite (drop_scheme_no_http value E).
    assert (Hs : drop_scheme (lit "https://" ++ value) = value).
    { unfold drop_scheme. rewrite startsWith_prefix.
      apply (drop_app_length (lit "https://") value). }
    now rewrite Hs.
Qed.

End ContactFacts.

(** ** The modern single-column template and the rows as they are shown *)

Module ResumeModernFacts.
Import LayoutFacts.

(** X6. The modern template's own [AdditionalSection] is one more copy
    of the resolver: for the same [labels] prop it computes what the
    Swiss template computes, hence what every renderer with the same
    table of default labels computes; without [additional] it renders
    nothing. *)
Theorem modern_additional_section_agrees
    (labels : option (SectionLabels.t (option jsstring)))
    (r : Renderer) (a : AdditionalInfo.t) :
  default_labels r = default_labels (SingleColumn labels) ->
  ResumeModern.AdditionalSection labels (Some a) = resolve r a
  /\ ResumeModern.AdditionalSection labels None = None.
Proof.
  intros Hd. split; [|reflexivity].
  change (ResumeModern.AdditionalSection labels (Some a))
    with (resolve (SingleColumn labels) a).
  rewrite !resolve_common. now rewrite Hd.
Qed.

Lemma modern_additional_section_agrees_witness :
  ResumeModern.AdditionalSection None (Some Samples.awards_first)
  = resolve (SingleColumn None) Samples.awards_first
  /\ ResumeModern.AdditionalSection None None = None.
Proof. apply modern_additional_section_agrees. reflexivity. Defined.

(** X7. A custom section of the modern template is rendered exactly
    when [renderDynamicContent] has something to render for it: the
    content test and the content renderer agree for every section type
    (an unknown type, a blank text, an empty or missing list give
    neither), so a heading never stands over an empty body. *)
Theorem custom_section_has_body (Item : Type) :
  (forall (sectionType : jsstring) (customSection : CustomSection Item),
      ResumeModern.hasContent Item sectionType customSection = true
      <-> is_Some (ResumeModern.renderDynamicContent Item sectionType customSection))
  /\ (forall (sectionMeta : SectionInfo)
             (customSections : option (gmap jsstring (CustomSection Item)))
             (title : jsstring) (body : option (DynamicContent Item)),
        ResumeModern.DynamicResumeSectionModern Item sectionMeta customSections
        = Some (title, body) ->
        title = displayName sectionMeta /\ is_Some body).
Proof.
  assert (Hagree : forall (sectionType : jsstring) (customSection : CustomSection Item),
             ResumeModern.hasContent Item sectionType customSection = true
             <-> is_Some (ResumeModern.renderDynamicContent Item sectionType
                            customSection)).
  { intros st cs. unfold ResumeModern.hasContent, ResumeModern.renderDynamicContent,
      ResumeModern.has_text, ResumeModern.has_length.
    destruct (bool_decide (st = lit "text")).
    { destruct (custom_text cs) as [text|].
      - destruct (JsString.truthy (JsString.trim text)); split;
          try discriminate; eauto; intros [? [=]].
      - split; [discriminate|intros [? [=]]]. }
    destruct (bool_decide (st = lit "itemList")).
    { destruct (custom_items cs) as [items|].
      - destruct (Nat.ltb 0 (length items)); split;
          try discriminate; eauto; intros [? [=]].
      - split; [discriminate|intros [? [=]]]. }
    destruct (bool_decide (st = lit "stringList")).
    { destruct (custom_strings cs) as [strings|].
      - destruct (Nat.ltb 0 (length strings)); split;
          try discriminate; eauto; intros [? [=]].
      - split; [discriminate|intros [? [=]]]. }
    split; [discriminate|intros [? [=]]]. }
  split; [exact Hagree|].
  intros meta sections title body. unfold ResumeModern.DynamicResumeSectionModern.
  destruct sections as [sections|]; [|discriminate].
  destruct (sections !! section_key meta) as [cs|]; [|discriminate].
  destruct (ResumeModern.hasContent Item (sectionType meta) cs) eqn:E; [|discriminate].
  cbn [negb]. intros [= <- <-]. split; [reflexivity|]. now apply Hagree.
Qed.

Lemma custom_section_has_body_witness :
  ResumeModern.DynamicResumeSectionModern unit MoreSamples.hobbies_meta
    MoreSamples.hobbies
  = Some (lit "Hobbies", Some (StringList (lit "Chess, Go")))
  /\ lit "Hobbies" = displayName MoreSamples.hobbies_meta
  /\ is_Some (Some (@StringList unit (lit "Chess, Go"))).
Proof.
  split; [reflexivity|].
  apply (proj2 (custom_section_has_body unit) MoreSamples.hobbies_meta
           MoreSamples.hobbies (lit "Hobbies") (Some (StringList (lit "Chess, Go")))).
  reflexivity.
Defined.

(** X8. In the two-column template the sidebar never shows a
    certifications row on its own: whenever the additional block of the
    sidebar has a row for [certificationsTraining], the main column
    renders the certifications section with the same items. *)
Theorem sidebar_certifications_imply_main
    (sectionHeadings : option (Headings.t (option jsstring)))
    (allSections : list SectionMeta) (a : AdditionalInfo.t) (l : Layout) (row : Row) :
  ResumeModernTwoColumn.sidebar_additional sectionHeadings allSections (Some a)
  = Some l ->
  In row (leftRows l ++ rightRows l) ->
  key row = lit "certificationsTraining" ->
  exists certs,
    items row = VStrings certs
    /\ ResumeModernTwoColumn.main_certifications sectionHeadings allSections (Some a)
       = Some (Headings.certifications
                 (ResumeModernTwoColumn.headingFallbacks sectionHeadings), certs).
Proof.
  unfold ResumeModernTwoColumn.sidebar_additional,
         ResumeModernTwoColumn.main_certifications.
  destruct (ResumeModernTwoColumn.isSectionVisible allSections (lit "additional"));
    [|discriminate].
  change (ResumeModernTwoColumn.additional_block sectionHeadings a)
    with (resolve (ModernTwoColumn sectionHeadings) a).
  rewrite resolve_common. intros Hl Hin Hkey.
  apply resolveLayout_Some in Hl as (Hrows & _ & Hleft & Hright & _).
  rewrite Hleft, Hright, take_drop, Hrows in Hin.
  unfold resolved_rows in Hin.
  rewrite <- list_elem_of_In, list_elem_of_omap in Hin.
  destruct Hin as (n & _ & Hrow).
  pose proof (key_row_of _ _ _ _ Hrow) as Hn. rewrite Hkey in Hn. subst n.
  change (lit "certificationsTraining")
    with (Key.name Key.certificationsTraining) in Hrow.
  rewrite row_of_name in Hrow. cbn [AdditionalInfo.category] in Hrow.
  destruct (AdditionalInfo.certificationsTraining a) as [[|c certs]|];
    try discriminate.
  injection Hrow as <-. exists (c :: certs). split; reflexivity.
Qed.

Lemma sidebar_certifications_imply_main_witness :
  exists l certs,
    ResumeModernTwoColumn.sidebar_additional None [] (Some Samples.default_order)
    = Some l
    /\ In (mkRow (lit "certificationsTraining")
              (VString (lit "Training & Certifications")) (VStrings [lit "AWS"]))
          (leftRows l ++ rightRows l)
    /\ VStrings [lit "AWS"] = VStrings certs
    /\ ResumeModernTwoColumn.main_certifications None [] (Some Samples.default_order)
       = Some (lit "Training & Certifications", certs).
Proof.
  assert (H : exists l,
             ResumeModernTwoColumn.sidebar_additional None []
               (Some Samples.default_order) = Some l
             /\ In (mkRow (lit "certificationsTraining")
                       (VString (lit "Training & Certifications"))
                       (VStrings [lit "AWS"]))
                   (leftRows l ++ rightRows l)).
  { eexists. split; [reflexivity|]. right. left. reflexivity. }
  destruct H as (l & Hl & Hin).
  destruct (sidebar_certifications_imply_main None [] Samples.default_order l _
              Hl Hin eq_refl) as (certs & Hitems & Hmain).
  exists l, certs. repeat split; assumption.
Defined.

(** X9. A row of a category key shows the items of that category, all
    of them and in the order in which they are stored, joined by a comma
    and a blank; such a row always has a list of strings to join. *)
Theorem category_row_text (r : Renderer) (a : AdditionalInfo.t) (l : Layout)
    (row : Row) (k : Key.t) :
  resolve r a = Some l ->
  In row (rows l) ->
  key row = Key.name k ->
  exists stored,
    AdditionalInfo.category a k = Some stored
    /\ stored <> []
    /\ row_text row = Some (JsText.join (lit ", ") stored).
Proof.
  rewrite resolve_common. intros Hl Hin Hkey.
  apply resolveLayout_Some in Hl as (Hrows & _). rewrite Hrows in Hin.
  unfold resolved_rows in Hin.
  rewrite <- list_elem_of_In, list_elem_of_omap in Hin.
  destruct Hin as (n & _ & Hrow).
  pose proof (key_row_of _ _ _ _ Hrow) as Hn. rewrite Hkey in Hn. subst n.
  rewrite row_of_name in Hrow.
  destruct (AdditionalInfo.category a k) as [[|i rest]|]; try discriminate.
  injection Hrow as <-. exists (i :: rest). repeat split. discriminate.
Qed.

Lemma category_row_text_witness :
  exists l row,
    resolve (Highlight Samples.t_english) Samples.default_order = Some l
    /\ In row (rows l)
    /\ row_text row = Some (lit "Go, Rust").
Proof.
  eexists. eexists. split; [reflexivity|]. split; [left; reflexivity|].
  destruct (category_row_text (Highlight Samples.t_english) Samples.default_order
              _ _ Key.technicalSkills eq_refl (or_introl eq_refl) eq_refl)
    as (stored & Hstored & _ & Htext).
  injection Hstored as <-. exact Htext.
Defined.

End ResumeModernFacts.

(** ** The additional-info form: text areas, titles, sliders *)

Module AdditionalFormFacts.
Import Store StoreFacts FormFacts AdditionalFormView.
Local Open Scope store_scope.

(** *** Lines *)

Lemma split_on_cons (sep : N) (s : jsstring) :
  exists piece pieces, JsString.split_on sep s = piece :: pieces.
Proof.
  induction s as [|c s (piece & pieces & IH)]; cbn; [eauto|].
  destruct (c =? sep)%N; [eauto|]. rewrite IH. eauto.
Qed.

Lemma split_on_clean (sep : N) (s : jsstring) :
  Forall (fun piece => ~ In sep piece) (JsString.split_on sep s).
Proof.
  induction s as [|c s IH]; cbn.
  - repeat constructor. intros [].
  - destruct (N.eqb_spec c sep) as [->|Hne].
    + constructor; [intros []|exact IH].
    + destruct (JsString.split_on sep s) as [|piece pieces].
      * repeat constructor. intros [?|[]]. congruence.
      * inversion IH as [|? ? Hp Hps]; subst. constructor; [|exact Hps].
        intros [?|?]; [congruence|contradiction].
Qed.

Lemma split_on_piece (sep : N) (x rest : jsstring) :
  ~ In sep x ->
  JsString.split_on sep (x ++ sep :: rest) = x :: JsString.split_on sep rest.
Proof.
  induction x as [|c x IH]; intros Hx; cbn.
  - now rewrite N.eqb_refl.
  - destruct (N.eqb_spec c sep) as [->|Hne]; [exfalso; apply Hx; now left|].
    rewrite IH; [reflexivity|]. intros H. apply Hx. now right.
Qed.

Lemma split_on_whole (sep : N) (x : jsstring) :
  ~ In sep x -> JsString.split_on sep x = [x].
Proof.
  induction x as [|c x IH]; intros Hx; cbn; [reflexivity|].
  destruct (N.eqb_spec c sep) as [->|Hne]; [exfalso; apply Hx; now left|].
  rewrite IH; [reflexivity|]. intros H. apply Hx. now right.
Qed.

(** Splitting what [join] put together gives the lines back. *)
Lemma split_join (sep : N) (items : list jsstring) :
  items <> [] ->
  Forall (fun item => ~ In sep item) items ->
  JsString.split_on sep (JsText.join [sep] items) = items.
Proof.
  induction items as [|x items IH]; [congruence|]. intros _ Hall.
  inversion Hall as [|? ? Hx Hrest]; subst.
  destruct items as [|y items].
  - cbn. now apply split_on_whole.
  - change (JsText.join [sep] (x :: y :: items))
      with (x ++ sep :: JsText.join [sep] (y :: items)).
    rewrite split_on_piece by exact Hx. f_equal. now apply IH.
Qed.

Lemma filter_all {A : Type} (f : A -> bool) (xs : list A) :
  Forall (fun x => f x = true) xs -> List.filter f xs = xs.
Proof.
  induction 1 as [|x xs Hx _ IH]; [reflexivity|]. cbn. now rewrite Hx, IH.
Qed.

Lemma or_else_empty (s : jsstring) : JsString.or_else s [] = s.
Proof. now destruct s. Qed.

Lemma strings_of_Str (items : list jsstring) : strings_of (Str <$> items) = Some items.
Proof. induction items as [|x items IH]; [reflexivity|]. cbn. now rewrite IH. Qed.

(** The lines a text stands for, and the text of these lines again. *)
Lemma lines_round_trip (items : list jsstring) :
  Forall (fun item => ~ In 10%N item /\ JsString.trim item <> []) items ->
  List.filter (fun item => negb (bool_decide (JsString.trim item = [])))
    (JsString.split_on 10 (JsString.or_else (JsText.join [10%N] items) []))
  = items.
Proof.
  intros Hall. rewrite or_else_empty. destruct items as [|x items]; [reflexivity|].
  rewrite split_join; [|discriminate|].
  - apply filter_all. eapply Forall_impl; [exact Hall|].
    intros item [_ Hne]. cbn. now rewrite bool_decide_eq_false_2.
  - eapply Forall_impl; [exact Hall|]. now intros item [H _].
Qed.

Lemma handleArrayChange_exact (data : loc) (field value : jsstring) (h : store)
    (d : gmap jsstring Store.value) :
  h !! data = Some (Obj d) ->
  AdditionalForm.handleArrayChange data field value h
  = Some (Some (Ref (length h + 2)),
          h ++ [Arr (Str <$> JsString.split_on 10 value);
                Arr (Str <$> List.filter
                       (fun item => negb (bool_decide (JsString.trim item = [])))
                       (JsString.split_on 10 value));
                Obj (<[field := Ref (length h + 1)]> d)]).
Proof.
  intros Hd. unfold AdditionalForm.handleArrayChange. cbv zeta.
  rewrite !bind_alloc.
  erewrite bind_load_obj by (repeat apply lookup_app_l_Some; eassumption).
  rewrite bind_alloc. unfold ret. rewrite !length_app. cbn [length].
  rewrite <- !app_assoc. cbn [app].
  replace (length h + 1 + 1) with (length h + 2) by lia. reflexivity.
Qed.

(** Reads by a computed name. *)
Lemma get_computed_own (props : gmap jsstring Store.value) (k : jsstring)
    (v : Store.value) :
  props !! k = Some v -> get_computed props k = Plain v.
Proof. unfold get_computed. now intros ->. Qed.



Lemma lookup_grown (h : store) (k : list object) (n : nat) (o : object) :
  k !! n = Some o -> (h ++ k) !! (length h + n) = Some o.
Proof.
  intros Hk. rewrite lookup_app_r by lia.
  now replace (length h + n - length h) with n by lia.
Qed.

(** X10. What the text area of a row shows can be handed back
    unchanged: when the stored items of a field contain no line break
    and none of them is blank, [handleArrayChange] on the text that
    [formatArray] makes of them stores exactly these items again. *)
Theorem textarea_round_trip (data : loc) (field : jsstring) (h : store)
    (d : gmap jsstring Store.value) (l : loc) (items : list jsstring) :
  h !! data = Some (Obj d) ->
  get d field = Ref l ->
  h !! l = Some (Arr (Str <$> items)) ->
  Forall (fun item => ~ In 10%N item /\ JsString.trim item <> []) items ->
  exists text h' o d' stored,
    textarea_value data field h = Some (text, h)
    /\ AdditionalForm.handleArrayChange data field text h = Some (Some (Ref o), h')
    /\ h' !! o = Some (Obj d')
    /\ d' !! field = Some (Ref stored)
    /\ h' !! stored = Some (Arr (Str <$> items)).
Proof.
  intros Hd Hfield Hl Hclean.
  exists (JsString.or_else (JsText.join [10%N] items) []).
  eexists _, _, _, _. split; [|split; [|split; [|split]]].
  - unfold textarea_value. erewrite bind_load_obj by eassumption.
    rewrite (get_computed_own d field (Ref l)).
    + unfold formatArray.
      erewrite bind_load_arr by eassumption. now rewrite strings_of_Str.
    + unfold get in Hfield. now destruct (d !! field) as [v|]; [subst v|].
  - eapply handleArrayChange_exact; eassumption.
  - apply (lookup_grown h _ 2); reflexivity.
  - apply lookup_insert_eq.
  - rewrite (lines_round_trip items Hclean). apply (lookup_grown h _ 1); reflexivity.
Qed.

Lemma textarea_round_trip_witness :
  exists text h' o d' stored,
    textarea_value 3 (lit "technicalSkills") MoreSamples.labelled_store
    = Some (text, MoreSamples.labelled_store)
    /\ AdditionalForm.handleArrayChange 3 (lit "technicalSkills") text
         MoreSamples.labelled_store
       = Some (Some (Ref o), h')
    /\ h' !! o = Some (Obj d')
    /\ d' !! lit "technicalSkills" = Some (Ref stored)
    /\ h' !! stored = Some (Arr (Str <$> [lit "Go"; lit "Rust"])).
Proof.
  apply (textarea_round_trip 3 (lit "technicalSkills") MoreSamples.labelled_store
           MoreSamples.labelled_data 1 [lit "Go"; lit "Rust"]).
  - reflexivity.
  - reflexivity.
  - reflexivity.
  - repeat (apply List.Forall_cons;
            [split; [cbn; intuition discriminate|discriminate]|]).
    apply List.Forall_nil.
Defined.

Lemma filter_sublist {A : Type} (f : A -> bool) (xs : list A) :
  sublist (List.filter f xs) xs.
Proof.
  induction xs as [|x xs IH]; [constructor|]. cbn.
  destruct (f x); now constructor.
Qed.

(** X11. Whatever text is submitted, [handleArrayChange] stores lines of
    that text, in their order and as they were typed; no stored item is
    blank and none contains a line break. *)
Theorem stored_items_are_lines (data : loc) (field value : jsstring) (h : store)
    (d : gmap jsstring Store.value) :
  h !! data = Some (Obj d) ->
  exists h' o d' stored items,
    AdditionalForm.handleArrayChange data field value h = Some (Some (Ref o), h')
    /\ h' !! o = Some (Obj d')
    /\ d' !! field = Some (Ref stored)
    /\ h' !! stored = Some (Arr (Str <$> items))
    /\ sublist items (JsString.split_on 10 value)
    /\ Forall (fun item => ~ In 10%N item /\ JsString.trim item <> []) items.
Proof.
  intros Hd. eexists _, _, _, _, _.
  split; [eapply handleArrayChange_exact; eassumption|].
  split; [apply (lookup_grown h _ 2); reflexivity|].
  split; [apply lookup_insert_eq|].
  split; [apply (lookup_grown h _ 1); reflexivity|].
  split; [apply filter_sublist|].
  apply List.Forall_forall. intros item Hin.
  apply List.filter_In in Hin as [Hin Hkeep]. split.
  - pose proof (split_on_clean 10 value) as Hall.
    rewrite List.Forall_forall in Hall. now apply Hall.
  - apply negb_true_iff, bool_decide_eq_false in Hkeep. exact Hkeep.
Qed.

Lemma stored_items_are_lines_witness :
  exists h' o d' stored items,
    AdditionalForm.handleArrayChange 2 (lit "awards") (lit "Prize") Samples.form_store
    = Some (Some (Ref o), h')
    /\ h' !! o = Some (Obj d')
    /\ d' !! lit "awards" = Some (Ref stored)
    /\ h' !! stored = Some (Arr (Str <$> items))
    /\ sublist items (JsString.split_on 10 (lit "Prize"))
    /\ Forall (fun item => ~ In 10%N item /\ JsString.trim item <> []) items.
Proof.
  apply (stored_items_are_lines 2 (lit "awards") (lit "Prize") Samples.form_store
           Samples.form_data).
  reflexivity.
Defined.

(** *** Label overrides *)








(** *** The order under every edit *)

Lemma handleDragEnd_outcome (keys data : loc) (h : store)
    (d : gmap jsstring Store.value) (l : loc) (elems : list Store.value)
    (ev : DragEndEvent) :
  h !! data = Some (Obj d) ->
  nullish (get d (lit "additionalSectionOrder")) (Ref keys) = Ref l ->
  h !! l = Some (Arr elems) ->
  AdditionalForm.handleDragEnd keys data ev h = Some (None, h)
  \/ exists new,
       new ≡ₚ elems
       /\ AdditionalForm.handleDragEnd keys data ev h
          = Some (Some (Ref (length h + 1)),
                  h ++ [Arr new;
                        Obj (<[lit "additionalSectionOrder" := Ref (length h)]> d)]).
Proof.
  intros Hd Hord Hl. destruct ev as [a [o|]].
  - destruct (decide (a = o)) as [->|Hne].
    { left. eapply handleDragEnd_cancel; eauto. }
    destruct (indexOf elems (Str a)) as [i|] eqn:Hi.
    + destruct (indexOf elems (Str o)) as [j|] eqn:Hj.
      * right.
        pose proof (indexOf_Str _ _ _ Hi) as Hai.
        pose proof (indexOf_Str _ _ _ Hj) as Hoj. apply lookup_lt_Some in Hoj.
        destruct (move_entry elems i j (Str a) Hai Hoj) as (Hrem & Hperm & _).
        eexists. split; [exact Hperm|].
        rewrite (handleDragEnd_move keys data h d l elems a o i j
                   Hd Hord Hl Hne Hi Hj).
        now rewrite Hrem.
      * left. eapply handleDragEnd_cancel; eauto. right. right. right. eauto.
    + left. eapply handleDragEnd_cancel; eauto.
  - left. eapply handleDragEnd_cancel; eauto.
Qed.

(** The order an object resolves to when one other property is set. *)
Lemma order_kept (keys : loc) (h : store) (k : list object)
    (d : gmap jsstring Store.value) (field : jsstring) (v : Store.value)
    (l : loc) (elems : list Store.value) :
  field <> lit "additionalSectionOrder" ->
  nullish (get d (lit "additionalSectionOrder")) (Ref keys) = Ref l ->
  h !! l = Some (Arr elems) ->
  nullish (get (<[field := v]> d) (lit "additionalSectionOrder")) (Ref keys) = Ref l
  /\ (h ++ k) !! l = Some (Arr elems).
Proof.
  intros Hne Hord Hl. split; [|now apply lookup_app_l_Some].
  unfold get in *. now rewrite lookup_insert_ne.
Qed.

(** X13. No edit loses, adds or repeats an entry of the order: whenever
    a handler calls [onChange], the order the new object resolves to is a
    permutation of the order the old object resolved to (the same array
    for every edit but a drag).  Only an edit of another field than the
    order is meant, or a drag. *)
Theorem edits_keep_order_entries (keys data : loc) (e : Edit) (h h' : store)
    (d : gmap jsstring Store.value) (l : loc) (elems : list Store.value) (o : loc) :
  h !! data = Some (Obj d) ->
  applicable keys h d e ->
  nullish (get d (lit "additionalSectionOrder")) (Ref keys) = Ref l ->
  h !! l = Some (Arr elems) ->
  (edited_field e = lit "additionalSectionOrder" -> exists ev, e = DragEnd ev) ->
  run keys data e h = Some (Some (Ref o), h') ->
  exists d' l' elems',
    h' !! o = Some (Obj d')
    /\ nullish (get d' (lit "additionalSectionOrder")) (Ref keys) = Ref l'
    /\ h' !! l' = Some (Arr elems')
    /\ elems' ≡ₚ elems.
Proof.
  intros Hd Happ Hord Hl Hfield.
  assert (Hother : forall (field : jsstring) (v : Store.value) (k : list object) (n : nat),
             field <> lit "additionalSectionOrder" ->
             k !! n = Some (Obj (<[field := v]> d)) ->
             Some (Some (Ref (length h + n)), h ++ k) = Some (Some (Ref o), h') ->
             exists d' l' elems',
               h' !! o = Some (Obj d')
               /\ nullish (get d' (lit "additionalSectionOrder")) (Ref keys) = Ref l'
               /\ h' !! l' = Some (Arr elems')
               /\ elems' ≡ₚ elems).
  { intros field v k n Hne Hk [= <- <-].
    destruct (order_kept keys h k d field v l elems Hne Hord Hl) as [Hord' Hl'].
    exists (<[field := v]> d), l, elems.
    split; [now apply lookup_grown|]. split; [exact Hord'|]. split; [exact Hl'|].
    reflexivity. }
  destruct e as [field value|key value|ev|raw|raw|field value];
    cbn [run edited_field applicable] in *.
  - rewrite (handleArrayChange_exact data field value h d Hd).
    intros Hrun. refine (Hother field _ _ 2 _ _ Hrun); [|reflexivity].
    intros ->. destruct (Hfield eq_refl) as [ev [=]].
  - destruct (handleSubsectionLabelChange_run data key value h d Hd Happ)
      as (next & v & ->).
    intros Hrun.
    refine (Hother (lit "additionalSubsectionLabels") _ _ 1 _ _ Hrun);
      [discriminate|reflexivity].
  - destruct (handleDragEnd_outcome keys data h d l elems ev Hd Hord Hl)
      as [->|(new & Hperm & ->)]; [discriminate|].
    intros [= <- <-].
    exists (<[lit "additionalSectionOrder" := Ref (length h)]> d), (length h), new.
    split; [apply (lookup_grown h _ 1); reflexivity|].
    split; [unfold get; now rewrite lookup_insert_eq|].
    split; [apply list_lookup_middle; reflexivity|exact Hperm].
  - destruct (handleColumnRatioChange_run data raw h d Hd) as (v & ->).
    intros Hrun.
    refine (Hother (lit "skillsLeftColumnRatio") _ _ 0 _ _ Hrun);
      [discriminate|reflexivity].
  - rewrite (handleColumnGapChange_run data raw h d Hd).
    intros Hrun.
    refine (Hother (lit "skillsColumnGapRem") _ _ 0 _ _ Hrun);
      [discriminate|reflexivity].
  - rewrite (handleChange_run data field value h d Hd).
    intros Hrun. refine (Hother field _ _ 0 _ _ Hrun); [|reflexivity].
    intros ->. destruct (Hfield eq_refl) as [ev [=]].
Qed.

Lemma edits_keep_order_entries_witness :
  exists h' o d' l' elems',
    run 0 2 (DragEnd (mkDragEndEvent (lit "awards") (Some (lit "languages"))))
      Samples.form_store
    = Some (Some (Ref o), h')
    /\ h' !! o = Some (Obj d')
    /\ nullish (get d' (lit "additionalSectionOrder")) (Ref 0) = Ref l'
    /\ h' !! l' = Some (Arr elems')
    /\ elems' ≡ₚ Str <$> DEFAULT_ADDITIONAL_SECTION_ORDER.
Proof.
  assert (Hrun : exists h' o,
             run 0 2 (DragEnd (mkDragEndEvent (lit "awards") (Some (lit "languages"))))
               Samples.form_store
             = Some (Some (Ref o), h')).
  { eexists _, _. vm_compute. reflexivity. }
  destruct Hrun as (h' & o & Hrun).
  assert (Happ : applicable 0 Samples.form_store Samples.form_data
                   (DragEnd (mkDragEndEvent (lit "awards") (Some (lit "languages"))))).
  { exists 0, (Str <$> DEFAULT_ADDITIONAL_SECTION_ORDER). split; reflexivity. }
  destruct (edits_keep_order_entries 0 2
              (DragEnd (mkDragEndEvent (lit "awards") (Some (lit "languages"))))
              Samples.form_store h' Samples.form_data 0
              (Str <$> DEFAULT_ADDITIONAL_SECTION_ORDER) o
              eq_refl Happ eq_refl eq_refl
              (fun _ => ex_intro _ _ eq_refl) Hrun)
    as (d' & l' & elems' & H1 & H2 & H3 & H4).
  exists h', o, d', l', elems'. repeat split; assumption.
Defined.

(** *** Titles and sliders *)

(** X14. The title the form gives the row of a category key is the label
    the highlight view falls back to for that key: both look up the same
    translation key.  For any other name the form uses the name itself
    as translation key and the placeholder of the technical skills. *)
Theorem form_titles_are_default_labels (t : jsstring -> jsstring) :
  (forall k : Key.t,
      t (getLabelKey (Key.name k))
      = KeyRecord.at_key (HighlightedResumeView.defaultLabels t) k)
  /\ (forall n : jsstring,
        Key.of_name n = None ->
        getLabelKey n = n
        /\ getPlaceholderKey n = getPlaceholderKey (lit "technicalSkills")).
Proof.
  split; [intros []; reflexivity|].
  intros n Hn. unfold Key.of_name in Hn.
  assert (Hk : forall k, In k Key.all -> bool_decide (n = Key.name k) = false).
  { intros k Hin. apply bool_decide_eq_false. intros ->.
    apply (List.find_none _ _ Hn) in Hin. now apply bool_decide_eq_false in Hin. }
  assert (H1 : bool_decide (n = lit "technicalSkills") = false)
    by (apply (Hk Key.technicalSkills); cbn; auto).
  assert (H2 : bool_decide (n = lit "languages") = false)
    by (apply (Hk Key.languages); cbn; auto).
  assert (H3 : bool_decide (n = lit "certificationsTraining") = false)
    by (apply (Hk Key.certificationsTraining); cbn; auto).
  assert (H4 : bool_decide (n = lit "awards") = false)
    by (apply (Hk Key.awards); cbn; auto).
  assert (H5 : bool_decide (n = lit "creativeTools") = false)
    by (apply (Hk Key.creativeTools); cbn; auto 10).
  unfold getLabelKey, getPlaceholderKey. cbv zeta.
  rewrite H1, H2, H3, H4, H5. split; reflexivity.
Qed.

Lemma form_titles_are_default_labels_witness :
  getLabelKey (lit "hobbies") = lit "hobbies"
  /\ getPlaceholderKey (lit "hobbies") = getPlaceholderKey (lit "technicalSkills").
Proof.
  apply (proj2 (form_titles_are_default_labels (fun k => k))). reflexivity.
Defined.

Lemma ratio_position_shown (p : JsNumber.number) :
  In p ratio_positions ->
  JsMath.Math_round
    (JsMath.mul
       (JsNumber.Math_min JsNumber.n0_75
          (JsNumber.Math_max JsNumber.n0_25
             (JsNumber.div p (JsNumber.of_Z 100))))
       (JsNumber.of_Z 100))
  = p.
Proof.
  unfold ratio_positions. cbn [seq List.map In].
  intros H.
  repeat (destruct H as [<-|H]; [vm_compute; reflexivity|]).
  contradiction.
Qed.

Lemma gap_position_shown (p : JsNumber.number) :
  In p gap_positions ->
  JsNumber.Math_min JsNumber.n2_5 (JsNumber.Math_max JsNumber.n0_5 p) = p.
Proof.
  unfold gap_positions. cbn [seq List.map In].
  intros H.
  repeat (destruct H as [<-|H]; [vm_compute; reflexivity|]).
  contradiction.
Qed.

(** X15. The ratio slider shows the position it was moved to: for each
    of its positions 25, 30, ..., 75, after [handleColumnRatioChange] the
    [leftRatioPercent] of the new data is that position. *)
Theorem ratio_slider_round_trip (data : loc) (h : store)
    (d : gmap jsstring Store.value) (p : JsNumber.number) :
  h !! data = Some (Obj d) ->
  In p ratio_positions ->
  exists h' o,
    AdditionalForm.handleColumnRatioChange data p h = Some (Some (Ref o), h')
    /\ leftRatioPercent o h' = Some (p, h').
Proof.
  intros Hd Hp. unfold AdditionalForm.handleColumnRatioChange. cbv zeta.
  erewrite bind_load_obj by eassumption. rewrite bind_alloc.
  eexists _, _. split; [reflexivity|].
  unfold leftRatioPercent. erewrite bind_load_obj by apply lookup_last.
  unfold get. rewrite lookup_insert_eq. cbn [number_or]. rewrite bind_ret.
  unfold ret. now rewrite (ratio_position_shown p Hp).
Qed.

Lemma ratio_slider_round_trip_witness :
  exists h' o,
    AdditionalForm.handleColumnRatioChange 2 (JsNumber.of_Z 40) Samples.form_store
    = Some (Some (Ref o), h')
    /\ leftRatioPercent o h' = Some (JsNumber.of_Z 40, h').
Proof.
  apply (ratio_slider_round_trip 2 Samples.form_store Samples.form_data).
  - reflexivity.
  - do 3 right. left. reflexivity.
Defined.

(** X16. The gap slider shows the position it was moved to: for each of
    its positions 0.5, 0.75, ..., 2.5, after [handleColumnGapChange] the
    [gapRem] of the new data is that position. *)
Theorem gap_slider_round_trip (data : loc) (h : store)
    (d : gmap jsstring Store.value) (p : JsNumber.number) :
  h !! data = Some (Obj d) ->
  In p gap_positions ->
  exists h' o,
    AdditionalForm.handleColumnGapChange data p h = Some (Some (Ref o), h')
    /\ gapRem o h' = Some (p, h').
Proof.
  intros Hd Hp. unfold AdditionalForm.handleColumnGapChange.
  erewrite bind_load_obj by eassumption. rewrite bind_alloc.
  eexists _, _. split; [reflexivity|].
  unfold gapRem. erewrite bind_load_obj by apply lookup_last.
  unfold get. rewrite lookup_insert_eq. cbn [number_or]. rewrite bind_ret.
  unfold ret. now rewrite (gap_position_shown p Hp).
Qed.

Lemma gap_slider_round_trip_witness :
  exists h' o,
    AdditionalForm.handleColumnGapChange 2 (JsNumber.decimal 175 100)
      Samples.form_store
    = Some (Some (Ref o), h')
    /\ gapRem o h' = Some (JsNumber.decimal 175 100, h').
Proof.
  apply (gap_slider_round_trip 2 Samples.form_store Samples.form_data).
  - reflexivity.
  - do 5 right. left. reflexivity.
Defined.

End AdditionalFormFacts.
